(** * pack_project: the file-selection pipeline of [tools/pack_project.py]

    A shallow embedding of the selection engine ([iter_files],
    [should_include_file], [_match_any_glob]), of the binary sniffer
    ([is_probably_binary]), of the fence chooser ([choose_code_fence]) and of
    the per-file loop of [main], together with the properties of the design
    document that can be settled on them.

    Conventions of the embedding.
    - A Python [str] is a Rocq [string]; [str.lower] and [str.strip] act on
      the ASCII range (other bytes are left alone).
    - A Python [set] of strings is a [gset string], the dict
      [NAME_LANG_OVERRIDES] a [gmap string string], a list a [list].
    - Python's unbounded [int] is [Z]; a [bytes] value is a [list Byte.byte].
    - The float quotient of [is_probably_binary] is computed with the
      primitive binary64 floats, as CPython does.
    - The file system is a finite graph of directories; [os.walk] is a
      recursive generator over it and carries a depth budget, since symbolic
      links may close a cycle.  The limit the operating system puts on the
      links of one path belongs to the file system it presents: [Os.view]
      builds that file system from a tree and its links. *)

From Stdlib Require Import ZArith Ascii String Strings.Byte List Bool Lia Floats Uint63.
From Stdlib Require Import Sorting.Sorted Sorting.Permutation.
From stdpp Require Import base option list strings gmap.

Open Scope string_scope.
Open Scope list_scope.

(* ===================================================================== *)
(** * Python string primitives                                            *)
(* ===================================================================== *)

Module PyStr.

Definition chars (s : string) : list ascii := list_ascii_of_string s.
Definition str (l : list ascii) : string := string_of_list_ascii l.

Definition code (c : ascii) : N := N_of_ascii c.

(** [str.lower], on the ASCII letters. *)
Definition lower_char (c : ascii) : ascii :=
  if ((65 <=? code c) && (code c <=? 90))%N
  then ascii_of_N (code c + 32) else c.

Definition lower (s : string) : string := str (map lower_char (chars s)).

(** The ASCII characters for which [str.isspace] holds. *)
Definition is_space (c : ascii) : bool :=
  (((9 <=? code c) && (code c <=? 13))
   || ((28 <=? code c) && (code c <=? 32)))%N.

Fixpoint lstrip_by (p : ascii -> bool) (l : list ascii) : list ascii :=
  match l with
  | c :: l' => if p c then lstrip_by p l' else l
  | [] => []
  end.

Definition rstrip_by (p : ascii -> bool) (l : list ascii) : list ascii :=
  rev (lstrip_by p (rev l)).

(** [s.strip()] *)
Definition strip (s : string) : string :=
  str (rstrip_by is_space (lstrip_by is_space (chars s))).

(** [s.lstrip(c)] for a one-character argument. *)
Definition lstrip_char (c : ascii) (s : string) : string :=
  str (lstrip_by (Ascii.eqb c) (chars s)).

(** [s.replace(a, b)] for one-character [a] and [b]. *)
Definition replace_char (a b : ascii) (s : string) : string :=
  str (map (fun c => if Ascii.eqb c a then b else c) (chars s)).

(** [s.startswith(c)] for a one-character argument. *)
Definition startswith_char (c : ascii) (s : string) : bool :=
  match s with
  | String c' _ => Ascii.eqb c' c
  | EmptyString => false
  end.

(** Truth value of a string: non-empty. *)
Definition truthy (s : string) : bool :=
  match s with EmptyString => false | _ => true end.

(** [s.rfind(c)]: index of the last occurrence, [None] for Python's -1. *)
Fixpoint rfind_from (c : ascii) (l : list ascii) (i : nat) (last : option nat)
  : option nat :=
  match l with
  | [] => last
  | x :: l' =>
      rfind_from c l' (S i) (if Ascii.eqb x c then Some i else last)
  end.

Definition rfind (c : ascii) (s : string) : option nat :=
  rfind_from c (chars s) 0 None.

(** [sep.join(parts)] *)
Fixpoint join (sep : string) (parts : list string) : string :=
  match parts with
  | [] => ""
  | [p] => p
  | p :: ps => p ++ sep ++ join sep ps
  end.

(** Lexicographic comparison of two strings by character code, the order
    of Python's [<] on [str]. *)
Fixpoint lex_leb (a b : list ascii) : bool :=
  match a, b with
  | [], _ => true
  | _ :: _, [] => false
  | x :: a', y :: b' =>
      if (code x <? code y)%N then true
      else if (code y <? code x)%N then false
      else lex_leb a' b'
  end.

Definition leb (a b : string) : bool := lex_leb (chars a) (chars b).
Definition ltb (a b : string) : bool := negb (leb b a).

End PyStr.

(* ===================================================================== *)
(** * [pathlib]: name and suffix of a path                                *)
(* ===================================================================== *)

Module PyPath.
Import PyStr.

(** [PurePath.suffix] of a path whose final component is [name]:
    [i = name.rfind('.')], the suffix is [name[i:]] when
    [0 < i < len(name) - 1] and the empty string otherwise. *)
Definition suffix (name : string) : string :=
  match rfind "." name with
  | Some i =>
      if (0 <? i)%nat && (i <? String.length name - 1)%nat
      then String.substring i (String.length name - i) name
      else ""
  | None => ""
  end.

(** [p.suffix.lower().lstrip(".")] *)
Definition ext_of (name : string) : string :=
  lstrip_char "." (lower (suffix name)).

(** [str(p.relative_to(root)).replace("\\", "/")] for the path whose
    components below the root are [dirs] followed by [fname]. *)
Definition rel_posix (dirs : list string) (fname : string) : string :=
  replace_char "\" "/" (join "/" (dirs ++ [fname])).

End PyPath.

(* ===================================================================== *)
(** * [fnmatch.fnmatch] on a POSIX host                                   *)
(* ===================================================================== *)

(** The pattern is translated as [fnmatch.translate] does: [*] matches any
    run of characters (path separators included), [?] one character,
    [[seq]] and [[!seq]] one character of (outside) a set with ranges, and
    every other character matches itself.  The resulting expression has to
    match the whole name. *)
Module Fnmatch.
Import PyStr.

Inductive item : Type :=
| Single (c : ascii)
| Range (lo hi : ascii).

Inductive tok : Type :=
| Star
| AnyChar
| Lit (c : ascii)
| Class (neg : bool) (items : list item)
| Never.

(** Scan for the first ["]"] of [l]; the text before it and the text
    after it. *)
Fixpoint split_at_close (l : list ascii) : option (list ascii * list ascii) :=
  match l with
  | [] => None
  | c :: l' =>
      if Ascii.eqb c "]" then Some ([], l')
      else match split_at_close l' with
           | Some (a, b) => Some (c :: a, b)
           | None => None
           end
  end.

(** The search for the closing bracket: a leading ["!"] and then a
    leading ["]"] belong to the set.  [rest] is the pattern after the
    opening bracket; the result is [(stuff, after)]. *)
Definition scan_bracket (rest : list ascii)
  : option (list ascii * list ascii) :=
  let '(p1, r1) :=
    match rest with
    | c :: r => if Ascii.eqb c "!" then ([c], r) else ([], rest)
    | [] => ([], rest)
    end in
  let '(p2, r2) :=
    match r1 with
    | c :: r => if Ascii.eqb c "]" then ([c], r) else ([], r1)
    | [] => ([], r1)
    end in
  match split_at_close r2 with
  | Some (a, after) => Some (p1 ++ p2 ++ a, after)
  | None => None
  end.

(** [pat.find('-', k, j)]: split [cur] at the first hyphen whose index is
    at least [skip]. *)
Fixpoint find_hyphen (skip : nat) (cur : list ascii)
  : option (list ascii * list ascii) :=
  match cur with
  | [] => None
  | c :: cur' =>
      match skip with
      | S s =>
          match find_hyphen s cur' with
          | Some (a, b) => Some (c :: a, b)
          | None => None
          end
      | O =>
          if Ascii.eqb c "-" then Some ([], cur')
          else match find_hyphen O cur' with
               | Some (a, b) => Some (c :: a, b)
               | None => None
               end
      end
  end.

(** The [while True] loop that cuts the set at the hyphens that make
    ranges: the chunks cut so far and the remaining text. *)
Fixpoint split_chunks (fuel skip : nat) (cur : list ascii)
  : list (list ascii) * list ascii :=
  match fuel with
  | O => ([], cur)
  | S fuel' =>
      match find_hyphen skip cur with
      | None => ([], cur)
      | Some (a, b) =>
          let '(cs, final) := split_chunks fuel' 2 b in (a :: cs, final)
      end
  end.

Fixpoint snoc_hyphen (chunks : list (list ascii)) : list (list ascii) :=
  match chunks with
  | [] => []
  | [c] => [c ++ ["-"%char]]
  | c :: cs => c :: snoc_hyphen cs
  end.

(** Removal of the empty ranges, from the last pair of chunks to the
    first. *)
Fixpoint drop_empty_ranges (chunks : list (list ascii))
  : list (list ascii) :=
  match chunks with
  | [] => []
  | c :: rest =>
      match drop_empty_ranges rest with
      | [] => [c]
      | d :: rest' =>
          match last c, head d with
          | Some x, Some y =>
              if (code y <? code x)%N
              then (removelast c ++ tail d) :: rest'
              else c :: d :: rest'
          | _, _ => c :: d :: rest'
          end
      end
  end.

Definition has_hyphen (stuff : list ascii) : bool :=
  existsb (Ascii.eqb "-") stuff.

(** The chunks of a set; without a hyphen the set is one chunk. *)
Definition chunks_of (stuff : list ascii) : list (list ascii) :=
  if has_hyphen stuff then
    let skip := match stuff with
                | c :: _ => if Ascii.eqb c "!" then 2 else 1
                | [] => 1
                end in
    let '(cs, final) := split_chunks (S (length stuff)) skip stuff in
    drop_empty_ranges
      (match final with
       | [] => snoc_hyphen cs
       | _ :: _ => cs ++ [final]
       end)
  else [stuff].

(** The members of the character set written by the chunks joined with
    hyphens: the characters of every chunk, and the range from the last
    character of a chunk to the first of the next one. *)
Fixpoint items_of (chunks : list (list ascii)) : list item :=
  match chunks with
  | [] => []
  | c :: rest =>
      map Single c ++
      match rest with
      | d :: _ =>
          match last c, head d with
          | Some x, Some y => [Range x y]
          | _, _ => []
          end
      | [] => []
      end ++ items_of rest
  end.

Definition class_of (stuff : list ascii) : tok :=
  match chunks_of stuff with
  | [] | [[]] => Never
  | (c :: first) :: rest =>
      if Ascii.eqb c "!" then
        match first, rest with
        | [], [] => AnyChar
        | _, _ => Class true (items_of (first :: rest))
        end
      else Class false (items_of ((c :: first) :: rest))
  | [] :: rest => Class false (items_of ([] :: rest))
  end.

Definition add_star (res : list tok) : list tok :=
  match res with
  | Star :: _ => res
  | _ => Star :: res
  end.

(** [translate]: the tokens are accumulated in reverse. *)
Fixpoint translate_loop (fuel : nat) (pat : list ascii) (res : list tok)
  : list tok :=
  match fuel with
  | O => rev res
  | S fuel' =>
      match pat with
      | [] => rev res
      | c :: rest =>
          if Ascii.eqb c "*" then translate_loop fuel' rest (add_star res)
          else if Ascii.eqb c "?" then translate_loop fuel' rest (AnyChar :: res)
          else if Ascii.eqb c "[" then
            match scan_bracket rest with
            | None => translate_loop fuel' rest (Lit c :: res)
            | Some (stuff, after) =>
                translate_loop fuel' after (class_of stuff :: res)
            end
          else translate_loop fuel' rest (Lit c :: res)
      end
  end.

Definition translate (pat : string) : list tok :=
  translate_loop (S (String.length pat)) (chars pat) [].

Definition item_matches (c : ascii) (it : item) : bool :=
  match it with
  | Single x => Ascii.eqb c x
  | Range lo hi => ((code lo <=? code c) && (code c <=? code hi))%N
  end.

Definition tok_matches (t : tok) (c : ascii) : bool :=
  match t with
  | Star | AnyChar => true
  | Lit x => Ascii.eqb c x
  | Class neg items => xorb neg (existsb (item_matches c) items)
  | Never => false
  end.

(** Whether the tokens match the whole of [s]. *)
Fixpoint matches (toks : list tok) (s : list ascii) {struct toks} : bool :=
  match toks with
  | [] => match s with [] => true | _ :: _ => false end
  | Star :: toks' =>
      (fix star (s : list ascii) : bool :=
         matches toks' s
         || match s with
            | [] => false
            | _ :: s' => star s'
            end) s
  | t :: toks' =>
      match s with
      | [] => false
      | c :: s' => tok_matches t c && matches toks' s'
      end
  end.

Definition fnmatch (name pat : string) : bool :=
  matches (translate pat) (chars name).

End Fnmatch.

(* ===================================================================== *)
(** * Module-level tables                                                 *)
(* ===================================================================== *)

Definition DEFAULT_EXCLUDE_DIRS : gset string :=
  list_to_set
    [ "archive";
      ".git"; "target"; ".idea"; ".vscode"; "node_modules"; ".venv"; ".tox";
      "dist"; "build"; ".mypy_cache"; ".pytest_cache"; "__pycache__";
      ".cargo" ].

Definition DEFAULT_EXTS : gset string :=
  list_to_set
    [ "wgsl";
      "rs"; "toml";
      "json"; "yml"; "yaml"; "cfg"; "ini"; "env" ].

Definition DEFAULT_EXCLUDE_EXTS : gset string :=
  list_to_set
    [ "lock";
      "gitignore";
      "sh"; "bash"; "zsh"; "ps1"; "bat"; "cmd"; "makefile"; "mk";
      "dockerfile";
      "html"; "css"; "scss"; "js"; "jsx"; "ts"; "tsx";
      "sql"; "proto"; "patch"; "diff"; "csv"; "tsv"; "xml"; "svg"; "gradle";
      "py";
      "exe"; "dll"; "so"; "dylib"; "a"; "lib"; "o"; "obj"; "pdb"; "wasm";
      "zip"; "tar"; "gz"; "tgz"; "bz2"; "tbz2"; "xz"; "7z"; "rar";
      "png"; "jpg"; "jpeg"; "gif"; "webp"; "bmp"; "tiff"; "tif"; "ico";
      "icns"; "psd";
      "ttf"; "otf"; "woff"; "woff2";
      "mp3"; "mp4"; "m4a"; "wav"; "flac"; "mov"; "avi"; "mkv"; "webm"; "ogg";
      "sqlite"; "db"; "rdb"; "mdb"; "accdb"; "realm";
      "gcda"; "gcno"; "profraw"; "profdata";
      "pdf"; "doc"; "docx"; "ppt"; "pptx"; "xls"; "xlsx";
      "ico"; "icns"; "map" ].

Definition NAME_LANG_OVERRIDES : gmap string string :=
  list_to_map
    [ ("dockerfile", "dockerfile");
      ("makefile", "makefile");
      ("license", "text");
      ("cargo.toml", "toml");
      ("cargo.lock", "text");
      ("build.rs", "rust");
      ("rust-toolchain", "text");
      ("rustfmt.toml", "toml");
      (".gitignore", "gitignore");
      (".gitattributes", "text");
      (".editorconfig", "ini");
      ("readme", "markdown");
      ("readme.md", "markdown") ].

(* ===================================================================== *)
(** * The selection engine                                                *)
(* ===================================================================== *)

(** The keyword arguments of [iter_files], with [max_bytes] of [main]. *)
Record config : Type := Config {
  exclude_dirs : gset string;
  include_globs : list string;
  ignore_globs : list string;
  ignore_exts : gset string;
  exts : gset string;
  prefer_include : bool;
  follow_symlinks : bool;
  max_bytes : Z
}.

(** The configuration [main] builds when no option is given. *)
Definition default_config : config :=
  {| exclude_dirs := DEFAULT_EXCLUDE_DIRS;
     include_globs := [];
     ignore_globs := [];
     ignore_exts := DEFAULT_EXCLUDE_EXTS;
     exts := DEFAULT_EXTS;
     prefer_include := false;
     follow_symlinks := false;
     max_bytes := 2000000 |}.

Module Select.
Import PyStr PyPath.

(** Truth value of a list: non-empty. *)
Definition nonempty {A : Type} (l : list A) : bool :=
  match l with [] => false | _ :: _ => true end.

(** [_match_any_glob] *)
Definition glob_of (pat : string) : string :=
  let p := lower (replace_char "\" "/" pat) in
  if startswith_char "/" p then lstrip_char "/" p else p.

Definition _match_any_glob (rel_posix_lower : string) (patterns : list string)
  : bool :=
  existsb (fun pat => Fnmatch.fnmatch rel_posix_lower (glob_of pat)) patterns.

(** [[g.strip() for g in globs if g.strip()]] *)
Definition clean_globs (globs : list string) : list string :=
  map strip (filter (fun g => truthy (strip g)) globs).

(** [{n.lower() for n in NAME_LANG_OVERRIDES.keys()}] *)
Definition include_names : gset string :=
  set_map lower (dom NAME_LANG_OVERRIDES).

(** [should_include_file] *)
Definition should_include_file (name : string) (exts include_names : gset string)
  : bool :=
  if bool_decide (lower name ∈ include_names) then true
  else if bool_decide (ext_of name ∈ exts) then true
  else if bool_decide (lower name ∈ dom NAME_LANG_OVERRIDES) then true
  else false.

Section PerFile.
Variable cfg : config.
(** The directory components below the root, and the file name. *)
Variables (dirs : list string) (fname : string).

Let inc_globs := clean_globs (include_globs cfg).
Let ign_globs := clean_globs (ignore_globs cfg).
Let rel_lower := lower (rel_posix dirs fname).
Let ext := ext_of fname.

(** The guards of the body of the [for fname in filenames] loop. *)
Definition matches_include : bool :=
  nonempty inc_globs && _match_any_glob rel_lower inc_globs.

Definition ignored_by_glob : bool :=
  nonempty ign_globs && _match_any_glob rel_lower ign_globs.

Definition ignored_by_ext : bool :=
  truthy ext && bool_decide (ext ∈ ignore_exts cfg).

(** Whether the loop body yields the path. *)
Definition selected : bool :=
  if prefer_include cfg && matches_include then true
  else if ignored_by_glob || ignored_by_ext then false
  else if negb (prefer_include cfg) && matches_include then true
  else should_include_file fname (exts cfg) include_names.
End PerFile.

End Select.

(* ===================================================================== *)
(** * The binary sniffer                                                   *)
(* ===================================================================== *)

Module Sniff.

(** [int / int]: for operands below 2^53 CPython converts both to a
    double, exactly, and divides them. *)
Definition float_of_int (a : Z) : float := PrimFloat.of_uint63 (Uint63.of_Z a).

Definition true_div (a b : Z) : float :=
  PrimFloat.div (float_of_int a) (float_of_int b).

(** The literal [0.30]: the double nearest to three tenths. *)
Definition threshold : float := 0x1.3333333333333p-2%float.

(** [bytearray({7, 8, 9, 10, 12, 13, 27} | set(range(0x20, 0x7F)))] *)
Definition in_text_chars (b : Byte.byte) : bool :=
  let n := Byte.to_N b in
  (bool_decide (n ∈ [7; 8; 9; 10; 12; 13; 27])
   || ((32 <=? n) && (n <? 127)))%N.

Definition is_nul (b : Byte.byte) : bool := (Byte.to_N b =? 0)%N.

(** [sum(b not in text_chars for b in chunk)] *)
Definition nontext (chunk : list Byte.byte) : Z :=
  Z.of_nat (length (filter (fun b => negb (in_text_chars b)) chunk)).

(** The body of [is_probably_binary] after the read of [chunk]. *)
Definition sniff (chunk : list Byte.byte) : bool :=
  match chunk with
  | [] => false
  | _ :: _ =>
      if existsb is_nul chunk then true
      else PrimFloat.ltb threshold
             (true_div (nontext chunk) (Z.max 1 (Z.of_nat (length chunk))))
  end.

(** [is_probably_binary(path, sniff_bytes)]: [data] is what a read of the
    file returns, [None] when opening or reading it raises. *)
Definition is_probably_binary (data : option (list Byte.byte)) (sniff_bytes : nat)
  : bool :=
  match data with
  | None => true
  | Some bytes => sniff (take sniff_bytes bytes)
  end.

(** ** Exhaustive comparison of the float test with the exact one *)

Definition agree_int (d n : int) : bool :=
  Bool.eqb
    (PrimFloat.ltb threshold
       (PrimFloat.div (PrimFloat.of_uint63 n) (PrimFloat.of_uint63 d)))
    (Uint63.ltb (Uint63.mul 3 d) (Uint63.mul 10 n)).

Fixpoint forall_int (fuel : nat) (i : int) (P : int -> bool) : bool :=
  match fuel with
  | O => true
  | S fuel' => P i && forall_int fuel' (Uint63.add i 1) P
  end.

(** Every denominator from [d] on, [fuel] of them, against every
    numerator from 0 to the denominator; [k] is [d] as a [nat]. *)
Fixpoint forall_ratio (fuel k : nat) (d : int) : bool :=
  match fuel with
  | O => true
  | S fuel' =>
      forall_int (S k) 0%uint63 (agree_int d)
      && forall_ratio fuel' (S k) (Uint63.add d 1)
  end.

End Sniff.

(* ===================================================================== *)
(** * [choose_code_fence]                                                 *)
(* ===================================================================== *)

Module Fence.
Import PyStr.

Definition backtick : ascii := "`"%char.

(** [re.findall(r"`+", content)]: the maximal runs of backticks, from
    left to right; [cur] is the run being read. *)
Fixpoint findall_runs (l cur : list ascii) : list (list ascii) :=
  match l with
  | [] => match cur with [] => [] | _ :: _ => [cur] end
  | c :: l' =>
      if Ascii.eqb c backtick then findall_runs l' (c :: cur)
      else match cur with
           | [] => findall_runs l' []
           | _ :: _ => cur :: findall_runs l' []
           end
  end.

(** [max((len(r) for r in runs), default=0)] *)
Definition longest (runs : list (list ascii)) : nat :=
  foldr (fun r m => Nat.max (length r) m) 0 runs.

Definition choose_code_fence (content : string) : string :=
  let runs := findall_runs (chars content) [] in
  let longest := longest runs in
  str (repeat backtick (if (3 <=? longest)%nat then longest + 2 else 3)).

End Fence.

(* ===================================================================== *)
(** * The file system and [os.walk]                                       *)
(* ===================================================================== *)

Module FS.

Definition dir_id : Type := nat.

(** What the operating system answers for a path that is not a
    directory: [st_size] is the result of [stat] ([None] when it raises,
    as for a dangling link), [data] the bytes a read returns ([None]
    when opening or reading raises). *)
Record file : Type := File {
  st_size : option Z;
  data : option (list Byte.byte)
}.

(** One entry of a directory listing.  [is_dir()] follows links, so a
    link to a directory is listed with the directories. *)
Inductive entry : Type :=
| EFile (name : string) (f : file)
| EDir (name : string) (target : dir_id)
| ELink (name : string) (target : dir_id).

(** The listing of each directory; a directory without a listing is one
    that [scandir] cannot read. *)
Definition filesystem : Type := gmap dir_id (list entry).

Definition dir_name (e : entry) : option string :=
  match e with
  | EFile _ _ => None
  | EDir name _ | ELink name _ => Some name
  end.

Definition file_of (e : entry) : option (string * file) :=
  match e with
  | EFile name f => Some (name, f)
  | _ => None
  end.

(** The directory a name of the listing leads to, and whether the name
    is a link. *)
Fixpoint find_dir (entries : list entry) (name : string)
  : option (bool * dir_id) :=
  match entries with
  | [] => None
  | EDir n t :: rest =>
      if String.eqb n name then Some (false, t) else find_dir rest name
  | ELink n t :: rest =>
      if String.eqb n name then Some (true, t) else find_dir rest name
  | EFile _ _ :: rest => find_dir rest name
  end.

(** One triple produced by the generator; [v_dirpath] holds the
    components of [dirpath] below the top. *)
Record visit : Type := Visit {
  v_dirpath : list string;
  v_dirnames : list string;
  v_files : list (string * file)
}.

Section Walk.
Variable fs : filesystem.
Variable followlinks : bool.
(** What the consumer does to the list [dirnames] it was handed, before
    it resumes the generator: the list is shared, and the walk descends
    into what is left of it. *)
Variable on_yield : list string -> list string.

(** The descent into one directory of [dirnames]: a link is entered only
    when links are followed; a name that leads nowhere is passed over. *)
Definition descend (rec : string -> dir_id -> list visit * bool)
    (entries : list entry) (name : string) : list visit * bool :=
  match find_dir entries name with
  | Some (islink, target) =>
      if followlinks || negb islink then rec name target else ([], true)
  | None => ([], true)
  end.

(** The descent into the directories left in [dirnames], in order.  The
    flag tells whether the descent returned. *)
Fixpoint walk_subdirs (rec : string -> dir_id -> list visit * bool)
    (entries : list entry) (names : list string) : list visit * bool :=
  match names with
  | [] => ([], true)
  | name :: rest =>
      let '(v1, ret1) := descend rec entries name in
      if ret1 then
        let '(v2, ret2) := walk_subdirs rec entries rest in
        (v1 ++ v2, ret2)
      else (v1, false)
  end.

(** [os.walk(top, topdown=True, onerror=None, followlinks)]: the triples
    produced within [depth] nested directories, and whether the
    generator was exhausted within that depth.  An unreadable directory
    produces nothing ([onerror] is not set). *)
Fixpoint walk (depth : nat) (dirpath : list string) (d : dir_id)
  : list visit * bool :=
  match depth with
  | O => ([], false)
  | S depth' =>
      match fs !! d with
      | None => ([], true)
      | Some entries =>
          let dirnames := on_yield (omap dir_name entries) in
          let '(sub, ret) :=
            walk_subdirs
              (fun name target => walk depth' (dirpath ++ [name]) target)
              entries dirnames in
          (Visit dirpath dirnames (omap file_of entries) :: sub, ret)
      end
  end.
End Walk.

End FS.

(* ===================================================================== *)
(** * [iter_files] and the loop of [main]                                 *)
(* ===================================================================== *)

Module Pack.
Import PyStr PyPath FS.

(** A path produced by [iter_files]: its directory components below the
    root, its name, and the file the path names. *)
Record candidate : Type := Candidate {
  c_dirs : list string;
  c_name : string;
  c_file : file
}.

(** [str(fp.relative_to(root)).replace("\\", "/")] *)
Definition rel_str (c : candidate) : string := rel_posix (c_dirs c) (c_name c).

(** [{d.lower() for d in exclude_dirs}] *)
Definition exclude_dirs_norm (cfg : config) : gset string :=
  set_map lower (exclude_dirs cfg).

(** [list.remove(x)]: the first occurrence goes. *)
Fixpoint remove_first (x : string) (l : list string) : list string :=
  match l with
  | [] => []
  | y :: l' => if String.eqb y x then l' else y :: remove_first x l'
  end.

(** The pruning loop, run over a copy of [dirnames]:
    [for d in list(dirnames): if d.lower() in exclude_dirs_norm:
     dirnames.remove(d)]. *)
Definition prune (cfg : config) (dirnames : list string) : list string :=
  fold_left
    (fun acc d =>
       if bool_decide (lower d ∈ exclude_dirs_norm cfg)
       then remove_first d acc else acc)
    dirnames dirnames.

(** The [for fname in filenames] loop on one triple of the walk. *)
Definition candidates_of (cfg : config) (v : visit) : list candidate :=
  omap
    (fun nf : string * file =>
       if Select.selected cfg (v_dirpath v) nf.1
       then Some (Candidate (v_dirpath v) nf.1 nf.2) else None)
    (v_files v).

(** [iter_files]: the paths yielded while the walk stays within [depth]
    nested directories, and whether the generator was exhausted. *)
Definition iter_files (cfg : config) (fs : filesystem) (root : dir_id)
    (depth : nat) : list candidate * bool :=
  let '(visits, ret) :=
    walk fs (follow_symlinks cfg) (prune cfg) depth [] root in
  (flat_map (candidates_of cfg) visits, ret).

(** ** [files.sort(key=...)] *)

Definition sort_key (c : candidate) : string := lower (rel_str c).

Fixpoint insert_by_key (c : candidate) (l : list candidate) : list candidate :=
  match l with
  | [] => [c]
  | d :: l' =>
      if leb (sort_key c) (sort_key d) then c :: l
      else d :: insert_by_key c l'
  end.

(** [list.sort] is a stable sort on the keys; an insertion sort that
    places an element before the elements of equal key which follow it
    in the input computes the same list. *)
Definition sort_files (l : list candidate) : list candidate :=
  foldr insert_by_key [] l.

(** ** The per-file loop *)

Record counters : Type := Counters {
  written : nat;
  skipped_binary : nat;
  skipped_too_large : nat;
  skipped_errors : nat
}.

(** The accesses to a file, by relative path. *)
Inductive io_event : Type :=
| IoStat (rel : string)
| IoSniff (rel : string)
| IoReadText (rel : string).

Record run_state : Type := RunState {
  counts : counters;
  emitted : list candidate;
  trace : list io_event
}.

Definition initial : run_state := RunState (Counters 0 0 0 0) [] [].

Definition bump_written (c : counters) : counters :=
  Counters (S (written c)) (skipped_binary c) (skipped_too_large c)
    (skipped_errors c).
Definition bump_binary (c : counters) : counters :=
  Counters (written c) (S (skipped_binary c)) (skipped_too_large c)
    (skipped_errors c).
Definition bump_too_large (c : counters) : counters :=
  Counters (written c) (skipped_binary c) (S (skipped_too_large c))
    (skipped_errors c).
Definition bump_errors (c : counters) : counters :=
  Counters (written c) (skipped_binary c) (skipped_too_large c)
    (S (skipped_errors c)).

Definition sniff_bytes : nat := 4096.

(** The body of [for fp in files], with its [try] and [except].  The tree
    does not change during the run, and the writes to [out] are taken to
    succeed: a raise in them (a path that cannot be encoded, a full disk)
    would end the iteration in [skipped_errors], after the full read. *)
Definition process_file (cfg : config) (st : run_state) (fp : candidate)
  : run_state :=
  let rel := rel_str fp in
  let t1 := trace st ++ [IoStat rel] in
  match st_size (c_file fp) with
  | None => RunState (bump_errors (counts st)) (emitted st) t1
  | Some size =>
      if (0 <? max_bytes cfg)%Z && (max_bytes cfg <? size)%Z then
        RunState (bump_too_large (counts st)) (emitted st) t1
      else
        let t2 := t1 ++ [IoSniff rel] in
        if Sniff.is_probably_binary (data (c_file fp)) sniff_bytes then
          RunState (bump_binary (counts st)) (emitted st) t2
        else
          let t3 := t2 ++ [IoReadText rel] in
          match data (c_file fp) with
          | None => RunState (bump_errors (counts st)) (emitted st) t3
          | Some _ =>
              RunState (bump_written (counts st)) (emitted st ++ [fp]) t3
          end
  end.

(** Whether the loop body writes the file: it passes the size test and
    the sniffer, and it can be read. *)
Definition accepts (cfg : config) (fp : candidate) : bool :=
  match st_size (c_file fp) with
  | None => false
  | Some size =>
      if (0 <? max_bytes cfg)%Z && (max_bytes cfg <? size)%Z then false
      else if Sniff.is_probably_binary (data (c_file fp)) sniff_bytes then false
      else match data (c_file fp) with
           | None => false
           | Some _ => true
           end
  end.

(** The order of the sort keys. *)
Definition key_le (a b : candidate) : Prop :=
  leb (sort_key a) (sort_key b) = true.

(** [main], from the call of [iter_files] on; [None] when the walk does
    not return within [depth]. *)
Definition main (cfg : config) (fs : filesystem) (root : dir_id)
    (depth : nat) : option run_state :=
  let '(files, ret) := iter_files cfg fs root depth in
  if ret then Some (fold_left (process_file cfg) (sort_files files) initial)
  else None.

End Pack.

(* ===================================================================== *)
(** * Concrete trees and configurations                                   *)
(* ===================================================================== *)

Module Scenario.
Import PyStr FS Pack.

Definition bytes_of (s : string) : list Byte.byte :=
  map byte_of_ascii (chars s).

Definition text_file (s : string) : file :=
  File (Some (Z.of_nat (String.length s))) (Some (bytes_of s)).

Definition sized_file (size : Z) : file :=
  File (Some size) (Some (bytes_of "x")).

(** A tree with [src/main.rs], [build/output.o], [Cargo.lock], [README]
    and [notes.bin]. *)
Definition project : filesystem :=
  list_to_map
    [ (0, [ EDir "src" 1; EDir "build" 2;
            EFile "Cargo.lock" (text_file "[[package]]");
            EFile "README" (text_file "hello");
            EFile "notes.bin" (File (Some 3%Z) (Some [x00; x01; x02])) ]);
      (1, [ EFile "main.rs" (text_file "fn main() {}") ]);
      (2, [ EFile "output.o" (File (Some 2%Z) (Some [x7f; x00])) ]) ].

(** Include glob [**/*.generated.ts] preferred over ignore glob [**/*.ts]. *)
Definition generated_config : config :=
  {| exclude_dirs := DEFAULT_EXCLUDE_DIRS;
     include_globs := ["**/*.generated.ts"];
     ignore_globs := ["**/*.ts"];
     ignore_exts := DEFAULT_EXCLUDE_EXTS;
     exts := DEFAULT_EXTS;
     prefer_include := true;
     follow_symlinks := false;
     max_bytes := 2000000 |}.

(** The default configuration with symbolic links followed. *)
Definition following_config : config :=
  {| exclude_dirs := DEFAULT_EXCLUDE_DIRS;
     include_globs := [];
     ignore_globs := [];
     ignore_exts := DEFAULT_EXCLUDE_EXTS;
     exts := DEFAULT_EXTS;
     prefer_include := false;
     follow_symlinks := true;
     max_bytes := 2000000 |}.

(** The default configuration with another size limit. *)
Definition limit_config (limit : Z) : config :=
  {| exclude_dirs := DEFAULT_EXCLUDE_DIRS;
     include_globs := [];
     ignore_globs := [];
     ignore_exts := DEFAULT_EXCLUDE_EXTS;
     exts := DEFAULT_EXTS;
     prefer_include := false;
     follow_symlinks := false;
     max_bytes := limit |}.

(** A configuration whose excluded extensions contain the empty string. *)
Definition empty_ext_config : config :=
  {| exclude_dirs := DEFAULT_EXCLUDE_DIRS;
     include_globs := [];
     ignore_globs := [];
     ignore_exts := {[ "" ]} ∪ DEFAULT_EXCLUDE_EXTS;
     exts := DEFAULT_EXTS;
     prefer_include := false;
     follow_symlinks := false;
     max_bytes := 2000000 |}.

(** The root holds [main.rs] and the link [loop], which points back to
    the root. *)
Definition cyclic : filesystem :=
  list_to_map
    [ (0, [ EFile "main.rs" (text_file "fn main() {}"); ELink "loop" 0 ]) ].

(** The root holds the directories [secret] and [src], in this order, and
    [src] holds [main.rs]; [secret] cannot be listed in the first tree and
    is empty in the second. *)
Definition with_unreadable : filesystem :=
  list_to_map
    [ (0, [ EDir "secret" 1; EDir "src" 2 ]);
      (2, [ EFile "main.rs" (text_file "fn main() {}") ]) ].

Definition with_empty : filesystem :=
  list_to_map
    [ (0, [ EDir "secret" 1; EDir "src" 2 ]);
      (1, []);
      (2, [ EFile "main.rs" (text_file "fn main() {}") ]) ].

(** The default configuration with include glob [**/*.o] preferred. *)
Definition objects_config : config :=
  {| exclude_dirs := DEFAULT_EXCLUDE_DIRS;
     include_globs := ["**/*.o"];
     ignore_globs := [];
     ignore_exts := DEFAULT_EXCLUDE_EXTS;
     exts := DEFAULT_EXTS;
     prefer_include := true;
     follow_symlinks := false;
     max_bytes := 2000000 |}.

(** Two names that differ in case only, listed lower case first. *)
Definition lower_first : candidate := Candidate [] "a.rs" (text_file "a").
Definition upper_second : candidate := Candidate [] "A.rs" (text_file "b").

Definition case_pair : filesystem :=
  list_to_map
    [ (0, [ EFile "a.rs" (text_file "a"); EFile "A.rs" (text_file "b") ]) ].

(** Buffers of one hundred bytes, [k] of them outside the text set. *)
Definition buffer (k : nat) : list Byte.byte :=
  repeat x80 k ++ repeat x61 (100 - k).

End Scenario.

(* ===================================================================== *)
(** * The other functions of the script                                   *)
(* ===================================================================== *)

Definition LANG_MAP : gmap string string :=
  list_to_map
    [ ("rs", "rust");
      ("toml", "toml");
      ("md", "markdown");
      ("markdown", "markdown");
      ("txt", "text");
      ("json", "json");
      ("yml", "yaml");
      ("yaml", "yaml");
      ("sh", "bash");
      ("bash", "bash");
      ("zsh", "bash");
      ("ps1", "powershell");
      ("bat", "batch");
      ("cmd", "batch");
      ("mk", "makefile");
      ("makefile", "makefile");
      ("dockerfile", "dockerfile");
      ("html", "html");
      ("css", "css");
      ("scss", "scss");
      ("js", "javascript");
      ("jsx", "jsx");
      ("ts", "typescript");
      ("tsx", "tsx");
      ("sql", "sql");
      ("proto", "protobuf");
      ("csv", "csv");
      ("tsv", "tsv");
      ("xml", "xml");
      ("svg", "xml");
      ("py", "python");
      ("cfg", "ini");
      ("ini", "ini");
      ("env", "dotenv");
      ("lock", "text");
      ("gradle", "groovy") ].

Module Lang.
Import PyStr PyPath.

(** [detect_lang_for], on the name of the path. *)
Definition detect_lang_for (name : string) : string :=
  match NAME_LANG_OVERRIDES !! lower name with
  | Some lang => lang
  | None =>
      match LANG_MAP !! ext_of name with
      | Some lang => lang
      | None => "text"
      end
  end.

End Lang.

Module IgnoreFile.
Import PyStr.

Definition cr : ascii := "013"%char.
Definition lf : ascii := "010"%char.

(** The ASCII line boundaries of [str.splitlines]: LF, VT, FF, CR, FS, GS
    and RS. *)
Definition is_line_break (c : ascii) : bool :=
  bool_decide (code c ∈ [10; 11; 12; 13; 28; 29; 30]%N).

(** [str.splitlines()]: the lines without their ends; CR LF is one
    boundary, and a final boundary opens no further line.  [cur] is the
    line being read, in reverse. *)
Fixpoint splitlines_from (l cur : list ascii) {struct l} : list (list ascii) :=
  match l with
  | [] => match cur with [] => [] | _ :: _ => [rev cur] end
  | c :: l' =>
      if Ascii.eqb c cr then
        match l' with
        | n :: l'' =>
            if Ascii.eqb n lf then rev cur :: splitlines_from l'' []
            else rev cur :: splitlines_from l' []
        | [] => [rev cur]
        end
      else if is_line_break c then rev cur :: splitlines_from l' []
      else splitlines_from l' (c :: cur)
  end.

Definition splitlines (s : string) : list string :=
  map str (splitlines_from (chars s) []).

(** The body of the loop of [_read_ignore_file] on one line: the pattern
    appended, if any. *)
Definition pattern_of_line (line : string) : option string :=
  let s := strip line in
  if negb (truthy s) || startswith_char "#" s then None else Some s.

(** [_read_ignore_file]: [text] is what [read_text] returns, [None] when it
    raises. *)
Definition _read_ignore_file (text : option string) : list string :=
  match text with
  | None => []
  | Some t => omap pattern_of_line (splitlines t)
  end.

End IgnoreFile.

Module Args.
Import PyStr.

(** [s.split(sep)] for a one-character separator. *)
Fixpoint split_from (sep : ascii) (l cur : list ascii) : list (list ascii) :=
  match l with
  | [] => [rev cur]
  | c :: l' =>
      if Ascii.eqb c sep then rev cur :: split_from sep l' []
      else split_from sep l' (c :: cur)
  end.

Definition split (sep : ascii) (s : string) : list string :=
  map str (split_from sep (chars s) []).

(** [filter(None, (s.strip() for s in arg.split(",")))], in order. *)
Definition names_of (arg : string) : list string :=
  List.filter truthy (map strip (split "," arg)).

(** [filter(None, (s.strip().lower() for s in arg.split(",")))], in order. *)
Definition lower_names_of (arg : string) : list string :=
  List.filter truthy (map (fun s => lower (strip s)) (split "," arg)).

(** [[g.strip() for g in arg.split(",") if g.strip()]] *)
Definition globs_of (arg : string) : list string :=
  Select.clean_globs (split "," arg).

(** The options of the command line that reach the selection;
    [arg_ignore_file] is [None] without [--ignore-file], and otherwise what
    reading the file gives. *)
Record args : Type := MkArgs {
  arg_max_bytes : Z;
  arg_exclude_dirs : string;
  arg_exts : string;
  arg_include_globs : string;
  arg_ignore_globs : string;
  arg_ignore_exts : string;
  arg_ignore_file : option (option string);
  arg_prefer_include : bool;
  arg_follow_symlinks : bool
}.

(** The values [main] passes to [iter_files]. *)
Definition config_of_args (a : args) : config :=
  {| exclude_dirs := list_to_set (names_of (arg_exclude_dirs a));
     include_globs := globs_of (arg_include_globs a);
     ignore_globs :=
       globs_of (arg_ignore_globs a)
       ++ match arg_ignore_file a with
          | Some text => IgnoreFile._read_ignore_file text
          | None => []
          end;
     ignore_exts := list_to_set (lower_names_of (arg_ignore_exts a));
     exts := list_to_set (lower_names_of (arg_exts a));
     prefer_include := arg_prefer_include a;
     follow_symlinks := arg_follow_symlinks a;
     max_bytes := arg_max_bytes a |}.

End Args.

Module Format.
Import PyStr IgnoreFile.

Definition nl : string := String lf "".

(** [content.replace("\r\n", "\n")] *)
Fixpoint replace_crlf (l : list ascii) {struct l} : list ascii :=
  match l with
  | [] => []
  | c :: l' =>
      match l' with
      | n :: l'' =>
          if Ascii.eqb c cr && Ascii.eqb n lf then lf :: replace_crlf l''
          else c :: replace_crlf l'
      | [] => [c]
      end
  end.

(** [content.replace("\r\n", "\n").replace("\r", "\n")] *)
Definition normalize_newlines (content : string) : string :=
  replace_char cr lf (str (replace_crlf (chars content))).

(** [content.endswith("\n")] *)
Definition endswith_nl (content : string) : bool :=
  match rev (chars content) with
  | c :: _ => Ascii.eqb c lf
  | [] => false
  end.

(** What the two writes [out.write(content)] and, when the content does not
    end with a newline, [out.write("\n")] put out. *)
Definition body (content : string) : string :=
  content ++ (if endswith_nl content then "" else nl).

(** The text written for one file, from [START FILE] to the blank line
    after [END FILE]; [content] is the normalised content. *)
Definition file_block (no_code_fences : bool) (rel_str lang content : string)
  : string :=
  ("===== START FILE: " ++ rel_str ++ " =====" ++ nl)
  ++ (if no_code_fences then body content
      else
        let fence := Fence.choose_code_fence content in
        (fence ++ lang ++ nl) ++ body content ++ (fence ++ nl))
  ++ ("===== END FILE: " ++ rel_str ++ " =====" ++ nl ++ nl).

End Format.

Module Reach.
Import FS Pack.

(** The directory reached from [d] along the names [dirs], entering links
    only when [followlinks] is set. *)
Fixpoint resolve (fs : filesystem) (followlinks : bool) (d : dir_id)
    (dirs : list string) : option dir_id :=
  match dirs with
  | [] => Some d
  | name :: rest =>
      match fs !! d with
      | None => None
      | Some entries =>
          match find_dir entries name with
          | Some (islink, target) =>
              if followlinks || negb islink
              then resolve fs followlinks target rest else None
          | None => None
          end
      end
  end.

(** The number of files the summary line accounts for. *)
Definition total (c : counters) : nat :=
  written c + skipped_binary c + skipped_too_large c + skipped_errors c.

Definition stat_of (e : io_event) : option string :=
  match e with IoStat rel => Some rel | _ => None end.

Definition sniff_of (e : io_event) : option string :=
  match e with IoSniff rel => Some rel | _ => None end.

Definition read_of (e : io_event) : option string :=
  match e with IoReadText rel => Some rel | _ => None end.

(** Whether the size test lets the file through. *)
Definition passes_size (cfg : config) (fp : candidate) : bool :=
  match st_size (c_file fp) with
  | None => false
  | Some size => negb ((0 <? max_bytes cfg)%Z && (max_bytes cfg <? size)%Z)
  end.

(** [fp.stat()] raises. *)
Definition stat_fails (fp : candidate) : bool :=
  match st_size (c_file fp) with
  | None => true
  | Some _ => false
  end.

(** [args.max_bytes > 0 and size > args.max_bytes] *)
Definition too_large (cfg : config) (fp : candidate) : bool :=
  match st_size (c_file fp) with
  | None => false
  | Some size => (0 <? max_bytes cfg)%Z && (max_bytes cfg <? size)%Z
  end.

(** The file reaches [is_probably_binary], which answers [True]. *)
Definition sniffed_binary (cfg : config) (fp : candidate) : bool :=
  passes_size cfg fp
  && Sniff.is_probably_binary (data (c_file fp)) sniff_bytes.

(** The file reaches [fp.read_text]: it passed the size test and
    [is_probably_binary] answered [False]. *)
Definition reaches_read (cfg : config) (fp : candidate) : bool :=
  passes_size cfg fp
  && negb (Sniff.is_probably_binary (data (c_file fp)) sniff_bytes).

End Reach.

Module Plain.
Import PyStr.

(** A pattern text without the characters [fnmatch] gives a meaning to. *)
Definition plain (l : list ascii) : bool :=
  forallb
    (fun c => negb (Ascii.eqb c "*" || Ascii.eqb c "?" || Ascii.eqb c "["))
    l.

Definition has_char (c : ascii) (s : string) : bool :=
  existsb (Ascii.eqb c) (chars s).

Definition no_comma_stripped (s : string) : bool :=
  negb (has_char "," s) && String.eqb (strip s) s && truthy s.

End Plain.

Module Mixed.
Import FS Pack.

(** A root with one file of each fate under a limit of ten bytes: [a.rs]
    is written, [b.rs] is larger than the limit, [c.rs] holds a NUL byte,
    [d.rs] cannot be opened, and [stat] fails on [e.rs]. *)
Definition tree : filesystem :=
  list_to_map
    [ (0, [ EFile "a.rs" (Scenario.text_file "fn a() {}");
            EFile "b.rs" (Scenario.sized_file 11);
            EFile "c.rs" (File (Some 2%Z) (Some [x61; x00]));
            EFile "d.rs" (File (Some 5%Z) None);
            EFile "e.rs" (File None None) ]) ].

Definition limit_ten : config := Scenario.limit_config 10.

End Mixed.

(* ===================================================================== *)
(** * The tree as the operating system resolves its paths                 *)
(* ===================================================================== *)

Module Os.
Import FS.

(** The number of symbolic links the operating system follows while it
    resolves one path: the resolution of a path through more links fails
    with [ELOOP] (40 on Linux). *)
Definition SYMLOOP_MAX : nat := 40.

Section View.
Variable limit : nat.

(** The directory [d] as a path through [k] links reaches it. *)
Definition at_links (k : nat) (d : dir_id) : dir_id := d * S limit + k.

(** One entry of a directory reached through [k] links, as [os.walk] finds
    it.  [entry.is_dir()] resolves the path of the entry, which for a link
    is one link more: beyond the limit the call raises [OSError], [os.walk]
    puts the name with the files, and [stat] and [open] fail on it in the
    same way.  A link is taken to lead to its directory by a path without
    further links. *)
Definition entry_at (k : nat) (e : entry) : entry :=
  match e with
  | EFile name f => EFile name f
  | EDir name target => EDir name (at_links k target)
  | ELink name target =>
      if (k <? limit)%nat then ELink name (at_links (S k) target)
      else EFile name (File None None)
  end.

(** The directories reached through exactly [k] links. *)
Definition layer (tree : filesystem) (k : nat) : filesystem :=
  kmap (at_links k) (map (entry_at k) <$> tree).

(** The file system that [os.walk] works on: the directories of [tree], each
    once for every number of links, up to the limit, that a path to it can
    go through. *)
Definition view (tree : filesystem) : filesystem :=
  foldr (fun k acc => layer tree k ∪ acc) ∅ (seq 0 (S limit)).


End View.


End Os.

(* ===================================================================== *)
(** * Properties of the selection engine                                  *)
(* ===================================================================== *)

Section SelectFacts.
Import PyStr PyPath Select.

Lemma should_include_file_override name exts :
  lower name ∈ include_names ->
  should_include_file name exts include_names = true.
Proof.
  intros Hin. unfold should_include_file.
  case_bool_decide; [reflexivity | contradiction].
Qed.

(** With no extension the extension guard of the ignore test is off. *)
Lemma ignored_by_ext_no_ext cfg fname :
  ext_of fname = "" -> ignored_by_ext cfg fname = false.
Proof. intros E. unfold ignored_by_ext. by rewrite E. Qed.

(** The four guards of the loop body, in the order of the code. *)
Lemma selected_cases cfg dirs fname :
  selected cfg dirs fname =
    if prefer_include cfg && matches_include cfg dirs fname then true
    else if ignored_by_glob cfg dirs fname || ignored_by_ext cfg fname then false
    else if negb (prefer_include cfg) && matches_include cfg dirs fname then true
    else should_include_file fname (exts cfg) include_names.
Proof. reflexivity. Qed.

Lemma matches_include_glob cfg dirs fname :
  _match_any_glob (lower (rel_posix dirs fname))
    (clean_globs (include_globs cfg)) = true ->
  matches_include cfg dirs fname = true.
Proof.
  intros H. unfold matches_include. rewrite H, andb_true_r.
  destruct (clean_globs (include_globs cfg)); [discriminate H | reflexivity].
Qed.

End SelectFacts.

(** C1, as the code has it.  A name override does not come first: the
    ignore test of the loop body runs before the base include rule.  A file
    whose lower-case name is a key of [NAME_LANG_OVERRIDES] is yielded
    exactly when a preferred include glob matches it or neither an ignore
    glob nor its (non-empty) extension excludes it. *)
Theorem name_override_selected_unless_ignored :
  forall (cfg : config) (dirs : list string) (fname : string),
    PyStr.lower fname ∈ Select.include_names ->
    Select.selected cfg dirs fname =
      (prefer_include cfg && Select.matches_include cfg dirs fname)
      || negb (Select.ignored_by_glob cfg dirs fname
               || Select.ignored_by_ext cfg fname).
Proof.
  intros cfg dirs fname Hin. rewrite selected_cases.
  rewrite (should_include_file_override _ _ Hin).
  destruct (prefer_include cfg), (Select.matches_include cfg dirs fname),
    (Select.ignored_by_glob cfg dirs fname), (Select.ignored_by_ext cfg fname);
    reflexivity.
Qed.

(** C1, instance: [README] is an override name, nothing ignores it under
    the default configuration, and it is yielded. *)
Lemma name_override_readme_witness :
  Select.selected default_config [] "README" = true.
Proof.
  rewrite (name_override_selected_unless_ignored default_config [] "README").
  - vm_compute. reflexivity.
  - compute_done.
Defined.

(** C1, refuted as stated: [Cargo.lock] is an override name, its extension
    [lock] is in [DEFAULT_EXCLUDE_EXTS], and under the default configuration
    the loop body does not yield it; the run over the tree of the design
    document writes [README] and [src/main.rs] only. *)
Lemma cargo_lock_excluded_by_default :
  PyStr.lower "Cargo.lock" ∈ Select.include_names
  /\ PyPath.ext_of "Cargo.lock" ∈ DEFAULT_EXCLUDE_EXTS
  /\ Select.selected default_config [] "Cargo.lock" = false
  /\ (map Pack.rel_str
        <$> (Pack.emitted <$> Pack.main default_config Scenario.project 0 2))
     = Some ["README"; "src/main.rs"].
Proof.
  split; [compute_done|].
  split; [compute_done|].
  split; vm_compute; reflexivity.
Qed.

(** C2.  When [prefer_include] is set and the lower-case relative path
    matches an include glob, the path is yielded whatever the ignore globs
    and the excluded extensions say.  With include glob [**/*.generated.ts]
    preferred and ignore glob [**/*.ts], [pkg/api.generated.ts] is yielded
    although the ignore glob matches it and its extension is excluded, and
    [pkg/plain.ts] is not yielded. *)
Theorem prefer_include_beats_ignore :
  (forall (cfg : config) (dirs : list string) (fname : string),
      prefer_include cfg = true ->
      Select._match_any_glob (PyStr.lower (PyPath.rel_posix dirs fname))
        (Select.clean_globs (include_globs cfg)) = true ->
      Select.selected cfg dirs fname = true)
  /\ Select.ignored_by_glob Scenario.generated_config ["pkg"] "api.generated.ts" = true
  /\ Select.ignored_by_ext Scenario.generated_config "api.generated.ts" = true
  /\ Select.selected Scenario.generated_config ["pkg"] "api.generated.ts" = true
  /\ Select.selected Scenario.generated_config ["pkg"] "plain.ts" = false.
Proof.
  split.
  - intros cfg dirs fname Hp Hm. rewrite selected_cases.
    by rewrite Hp, (matches_include_glob _ _ _ Hm).
  - split; [|split; [|split]]; vm_compute; reflexivity.
Qed.

(** C2, instance: the general statement applied to [pkg/api.generated.ts]. *)
Lemma prefer_include_generated_witness :
  Select.selected Scenario.generated_config ["pkg"] "api.generated.ts" = true.
Proof.
  apply (proj1 prefer_include_beats_ignore Scenario.generated_config
           ["pkg"] "api.generated.ts").
  - reflexivity.
  - vm_compute. reflexivity.
Defined.

(** C10.  A file without extension is never stopped by the excluded
    extensions, whatever the set holds; when it is not yielded, either an
    ignore glob matched it or no include rule took it (no include glob
    matches and [should_include_file] is false). *)
Theorem extensionless_not_excluded_by_extension :
  forall (cfg : config) (dirs : list string) (fname : string),
    PyPath.ext_of fname = "" ->
    Select.ignored_by_ext cfg fname = false
    /\ (Select.selected cfg dirs fname = false ->
        Select.ignored_by_glob cfg dirs fname = true
        \/ (Select.matches_include cfg dirs fname = false
            /\ Select.should_include_file fname (exts cfg)
                 Select.include_names = false)).
Proof.
  intros cfg dirs fname E. split; [by apply ignored_by_ext_no_ext|].
  rewrite selected_cases, (ignored_by_ext_no_ext _ _ E), orb_false_r.
  generalize (Select.should_include_file fname (exts cfg) Select.include_names).
  intros base.
  destruct (prefer_include cfg), (Select.matches_include cfg dirs fname),
    (Select.ignored_by_glob cfg dirs fname), base; cbv [andb orb negb];
    intros H; first [discriminate H | left; reflexivity | right; split; reflexivity].
Qed.

(** C10, instance: [notes] has no extension; with the empty string among
    the excluded extensions it is still not stopped by them, and it is left
    out only because no include rule takes it. *)
Lemma extensionless_notes_witness :
  "" ∈ ignore_exts Scenario.empty_ext_config
  /\ Select.ignored_by_ext Scenario.empty_ext_config "notes" = false
  /\ (Select.selected Scenario.empty_ext_config [] "notes" = false ->
      Select.ignored_by_glob Scenario.empty_ext_config [] "notes" = true
      \/ (Select.matches_include Scenario.empty_ext_config [] "notes" = false
          /\ Select.should_include_file "notes"
               (exts Scenario.empty_ext_config) Select.include_names = false)).
Proof.
  split; [compute_done|].
  apply (extensionless_not_excluded_by_extension Scenario.empty_ext_config
           [] "notes").
  vm_compute. reflexivity.
Defined.


(* ===================================================================== *)
(** * Properties of [choose_code_fence]                                   *)
(* ===================================================================== *)

Section FenceFacts.
Import PyStr Fence.

Lemma chars_str l : chars (str l) = l.
Proof. apply list_ascii_of_string_of_list_ascii. Qed.

Lemma length_str l : String.length (str l) = length l.
Proof.
  induction l as [|c l IH]; [reflexivity|]. cbn. f_equal. exact IH.
Qed.

Lemma longest_cons r runs :
  longest (r :: runs) = Nat.max (length r) (longest runs).
Proof. reflexivity. Qed.

(** A run that starts where the scan stands is counted together with the
    run [cur] already read. *)
Lemma findall_runs_prefix l : forall cur k post,
  l = repeat backtick k ++ post ->
  length cur + k <= longest (findall_runs l cur).
Proof.
  induction l as [|c l IH]; intros cur k post E.
  - destruct k; [|discriminate E]. destruct cur; cbn; lia.
  - destruct k as [|k].
    + cbn [findall_runs]. destruct (Ascii.eqb c backtick).
      * specialize (IH (c :: cur) 0 l eq_refl). cbn [length] in IH. lia.
      * destruct cur; [cbn; lia|]. rewrite longest_cons. lia.
    + cbn [repeat app] in E. injection E as -> E.
      cbn [findall_runs]. rewrite Ascii.eqb_refl.
      specialize (IH (backtick :: cur) k post E). cbn [length] in IH. lia.
Qed.

(** Every run of backticks of the content is at most [longest]. *)
Lemma findall_runs_covers pre : forall l cur k post,
  l = pre ++ repeat backtick k ++ post ->
  k <= longest (findall_runs l cur).
Proof.
  induction pre as [|c pre IH]; intros l cur k post E.
  - pose proof (findall_runs_prefix l cur k post E). lia.
  - subst l. cbn [app findall_runs]. destruct (Ascii.eqb c backtick).
    + by eapply IH.
    + destruct cur.
      * by eapply IH.
      * rewrite longest_cons.
        pose proof (IH (pre ++ repeat backtick k ++ post) [] k post eq_refl).
        lia.
Qed.

Lemma fence_length content :
  String.length (choose_code_fence content) =
    let m := longest (findall_runs (chars content) []) in
    if (3 <=? m)%nat then m + 2 else 3.
Proof.
  unfold choose_code_fence. rewrite length_str, repeat_length. reflexivity.
Qed.

End FenceFacts.

(** C9.  The fence is made of backticks only, has at least three of them,
    and is strictly longer than any run of consecutive backticks that
    occurs in the content. *)
Theorem choose_code_fence_exceeds_runs :
  forall content : string,
    (forall c, In c (PyStr.chars (Fence.choose_code_fence content)) ->
               c = Fence.backtick)
    /\ 3 <= String.length (Fence.choose_code_fence content)
    /\ (forall pre k post,
          PyStr.chars content = pre ++ repeat Fence.backtick k ++ post ->
          k < String.length (Fence.choose_code_fence content)).
Proof.
  intros content. split; [|split].
  - intros c Hc. unfold Fence.choose_code_fence in Hc.
    rewrite chars_str in Hc. by apply repeat_spec in Hc.
  - rewrite fence_length. cbv zeta.
    destruct (Nat.leb_spec 3 (Fence.longest (Fence.findall_runs (PyStr.chars content) []))); lia.
  - intros pre k post E. rewrite fence_length. cbv zeta.
    pose proof (findall_runs_covers pre _ [] k post E).
    destruct (Nat.leb_spec 3 (Fence.longest (Fence.findall_runs (PyStr.chars content) []))); lia.
Qed.

(** C9, instance: a content with a run of four backticks gets a fence
    longer than four. *)
Lemma choose_code_fence_four_witness :
  4 < String.length (Fence.choose_code_fence "a ```` b").
Proof.
  apply (proj2 (proj2 (choose_code_fence_exceeds_runs "a ```` b"))
           ["a"; " "]%char 4 [" "; "b"]%char).
  reflexivity.
Defined.


(* ===================================================================== *)
(** * Properties of the binary sniffer                                    *)
(* ===================================================================== *)

Section SniffFacts.
Import Sniff.
Open Scope Z_scope.

Lemma to_Z_succ (i : int) :
  Uint63.to_Z i + 1 < wB ->
  Uint63.to_Z (Uint63.add i 1) = Uint63.to_Z i + 1.
Proof.
  intros Hb. pose proof (Uint63.to_Z_bounded i).
  rewrite Uint63.add_spec. change (Uint63.to_Z 1) with 1.
  apply Z.mod_small. lia.
Qed.

Lemma forall_int_spec fuel : forall i P,
  forall_int fuel i P = true ->
  Uint63.to_Z i + Z.of_nat fuel < wB ->
  forall x : int,
    Uint63.to_Z i <= Uint63.to_Z x < Uint63.to_Z i + Z.of_nat fuel ->
    P x = true.
Proof.
  induction fuel as [|fuel IH]; intros i P H Hb x Hx; [lia|].
  cbn [forall_int] in H. apply andb_prop in H as [H1 H2].
  destruct (Z.eq_dec (Uint63.to_Z x) (Uint63.to_Z i)) as [E|E].
  - apply Uint63.to_Z_inj in E. by subst x.
  - apply (IH _ _ H2); rewrite to_Z_succ; lia.
Qed.

Lemma forall_ratio_spec fuel : forall k d,
  forall_ratio fuel k d = true ->
  Uint63.to_Z d = Z.of_nat k ->
  Z.of_nat k + Z.of_nat fuel < wB ->
  forall y x : int,
    Z.of_nat k <= Uint63.to_Z y < Z.of_nat k + Z.of_nat fuel ->
    0 <= Uint63.to_Z x <= Uint63.to_Z y ->
    agree_int y x = true.
Proof.
  induction fuel as [|fuel IH]; intros k d H Hd Hb y x Hy Hx; [lia|].
  cbn [forall_ratio] in H. apply andb_prop in H as [H1 H2].
  destruct (Z.eq_dec (Uint63.to_Z y) (Uint63.to_Z d)) as [E|E].
  - apply Uint63.to_Z_inj in E. subst y.
    apply (forall_int_spec _ _ _ H1); change (Uint63.to_Z 0) with 0; lia.
  - apply (IH (S k) _ H2); [rewrite to_Z_succ; lia | lia | lia | lia].
Qed.

(** The comparison, run over every ratio with a denominator up to 4096. *)
Lemma ratios_checked : forall_ratio 4096 1 1%uint63 = true.
Proof. vm_compute. reflexivity. Qed.

(** On a prefix of at most 4096 bytes the float test is the exact one. *)
Lemma float_test_exact n d :
  0 <= n <= d -> 1 <= d <= 4096 ->
  PrimFloat.ltb threshold (true_div n d) = (3 * d <? 10 * n).
Proof.
  intros Hn Hd. unfold true_div, float_of_int.
  assert (HwB : wB = 9223372036854775808) by reflexivity.
  assert (En : Uint63.to_Z (Uint63.of_Z n) = n)
    by (rewrite Uint63.of_Z_spec; apply Z.mod_small; lia).
  assert (Ed : Uint63.to_Z (Uint63.of_Z d) = d)
    by (rewrite Uint63.of_Z_spec; apply Z.mod_small; lia).
  assert (A : agree_int (Uint63.of_Z d) (Uint63.of_Z n) = true).
  { apply (forall_ratio_spec _ _ _ ratios_checked eq_refl);
      rewrite ?En, ?Ed; cbn; lia. }
  unfold agree_int in A. apply Bool.eqb_prop in A. rewrite A.
  assert (M1 : Uint63.to_Z (Uint63.mul 3 (Uint63.of_Z d)) = 3 * d).
  { rewrite Uint63.mul_spec, Ed. change (Uint63.to_Z 3) with 3.
    apply Z.mod_small. lia. }
  assert (M2 : Uint63.to_Z (Uint63.mul 10 (Uint63.of_Z n)) = 10 * n).
  { rewrite Uint63.mul_spec, En. change (Uint63.to_Z 10) with 10.
    apply Z.mod_small. lia. }
  destruct (Uint63.ltbP (Uint63.mul 3 (Uint63.of_Z d))
              (Uint63.mul 10 (Uint63.of_Z n))) as [L|L];
    rewrite M1, M2 in L; symmetry; [apply Z.ltb_lt | apply Z.ltb_ge]; lia.
Qed.

Lemma is_nul_spec b : is_nul b = true <-> b = x00.
Proof.
  unfold is_nul. rewrite N.eqb_eq. split; [|by intros ->].
  intros E. pose proof (Byte.of_to_N b) as H. rewrite E in H.
  by injection H.
Qed.

Lemma existsb_is_nul chunk : existsb is_nul chunk = true <-> In x00 chunk.
Proof.
  rewrite existsb_exists. split.
  - intros (b & Hb & Hn). apply is_nul_spec in Hn. by subst b.
  - intros H. exists x00. split; [exact H | reflexivity].
Qed.

Lemma nontext_bounds chunk : 0 <= nontext chunk <= Z.of_nat (length chunk).
Proof.
  unfold nontext. split; [lia|]. apply inj_le. apply length_filter.
Qed.

Lemma in_text_chars_spec b :
  in_text_chars b = true <->
  ((32 <= Byte.to_N b <= 126)%N \/ In (Byte.to_N b) [7; 8; 9; 10; 12; 13; 27]%N).
Proof.
  unfold in_text_chars. rewrite orb_true_iff, andb_true_iff.
  rewrite bool_decide_eq_true, N.leb_le, N.ltb_lt, list_elem_of_In.
  split.
  - intros [H|H]; [right; exact H | left; lia].
  - intros [H|H]; [right; lia | left; exact H].
Qed.

End SniffFacts.

(** C4.  On a prefix of at most 4096 bytes (the size [main] reads): the
    empty prefix is not binary; a prefix with a NUL byte is binary; any
    other prefix is binary exactly when the bytes outside the text set are
    strictly more than 30 per cent of it.  The text set is 0x20..0x7E with
    7, 8, 9, 10, 12, 13 and 27. *)
Theorem sniff_thirty_percent :
  forall chunk : list Byte.byte,
    (length chunk <= 4096)%nat ->
    (chunk = [] -> Sniff.sniff chunk = false)
    /\ (In x00 chunk -> Sniff.sniff chunk = true)
    /\ (chunk <> [] -> ~ In x00 chunk ->
        (Sniff.sniff chunk = true <->
         (30 * Z.of_nat (length chunk) < 100 * Sniff.nontext chunk)%Z))
    /\ (forall b, Sniff.in_text_chars b = true <->
          ((32 <= Byte.to_N b <= 126)%N
           \/ In (Byte.to_N b) [7; 8; 9; 10; 12; 13; 27]%N)).
Proof.
  intros chunk Hlen. split; [|split; [|split]].
  - by intros ->.
  - intros Hin. destruct chunk as [|b chunk]; [destruct Hin|].
    unfold Sniff.sniff. apply existsb_is_nul in Hin. by rewrite Hin.
  - intros Hne Hnul. destruct chunk as [|b chunk]; [done|].
    unfold Sniff.sniff.
    destruct (existsb Sniff.is_nul (b :: chunk)) eqn:Ex.
    { apply existsb_is_nul in Ex. contradiction. }
    pose proof (nontext_bounds (b :: chunk)) as Hb.
    assert (Hpos : (1 <= Z.of_nat (length (b :: chunk)))%Z) by (cbn [length]; lia).
    rewrite Z.max_r by lia.
    rewrite float_test_exact by lia.
    rewrite Z.ltb_lt. lia.
  - apply in_text_chars_spec.
Qed.

(** C4, instances: of one hundred bytes, 29 outside the text set give a
    text verdict and 31 a binary one; one NUL among text bytes gives a
    binary verdict. *)
Lemma sniff_boundary_witness :
  Sniff.sniff (Scenario.buffer 29) = false
  /\ Sniff.sniff (Scenario.buffer 31) = true
  /\ Sniff.sniff (x00 :: repeat x61 99) = true.
Proof.
  split; [|split].
  - destruct (sniff_thirty_percent (Scenario.buffer 29)) as (_ & _ & H & _).
    { apply Nat.leb_le. vm_compute. reflexivity. }
    destruct (Sniff.sniff (Scenario.buffer 29)) eqn:E; [|reflexivity].
    exfalso.
    assert (Hn : ~ In x00 (Scenario.buffer 29)).
    { intros Hin. apply existsb_is_nul in Hin. vm_compute in Hin. discriminate Hin. }
    assert (Hne : Scenario.buffer 29 <> []) by (intros E'; discriminate E').
    pose proof (proj1 (H Hne Hn) eq_refl) as C. vm_compute in C. discriminate C.
  - destruct (sniff_thirty_percent (Scenario.buffer 31)) as (_ & _ & H & _).
    { apply Nat.leb_le. vm_compute. reflexivity. }
    apply H.
    + intros E'. discriminate E'.
    + intros Hin. apply existsb_is_nul in Hin. vm_compute in Hin. discriminate Hin.
    + vm_compute. reflexivity.
  - destruct (sniff_thirty_percent (x00 :: repeat x61 99)) as (_ & H & _).
    { apply Nat.leb_le. vm_compute. reflexivity. }
    apply H. left. reflexivity.
Defined.


(* ===================================================================== *)
(** * Properties of the per-file loop and of the sort                     *)
(* ===================================================================== *)

Section LoopFacts.
Import PyStr FS Pack.

Lemma emitted_process_file cfg st fp :
  emitted (process_file cfg st fp) =
    emitted st ++ (if accepts cfg fp then [fp] else []).
Proof.
  unfold process_file, accepts.
  destruct (st_size (c_file fp)) as [size|]; cbn [emitted];
    [|by rewrite app_nil_r].
  destruct ((0 <? max_bytes cfg)%Z && (max_bytes cfg <? size)%Z);
    cbn [emitted]; [by rewrite app_nil_r|].
  destruct (Sniff.is_probably_binary (data (c_file fp)) sniff_bytes);
    cbn [emitted]; [by rewrite app_nil_r|].
  destruct (data (c_file fp)); cbn [emitted]; [reflexivity | by rewrite app_nil_r].
Qed.

(** The files written are the accepted ones, in the order of the list. *)
Lemma emitted_fold cfg l : forall st,
  emitted (fold_left (process_file cfg) l st) =
    emitted st ++ List.filter (accepts cfg) l.
Proof.
  induction l as [|fp l IH]; intros st; cbn [fold_left List.filter].
  - by rewrite app_nil_r.
  - rewrite IH, emitted_process_file.
    destruct (accepts cfg fp); by rewrite <- app_assoc.
Qed.

(** ** The order on the keys *)

Lemma lex_leb_refl a : lex_leb a a = true.
Proof.
  induction a as [|x a IH]; [reflexivity|]. cbn [lex_leb].
  by rewrite N.ltb_irrefl.
Qed.

Lemma lex_leb_total a : forall b, lex_leb a b = true \/ lex_leb b a = true.
Proof.
  induction a as [|x a IH]; intros [|y b]; cbn [lex_leb]; auto.
  destruct (N.ltb_spec (code x) (code y)), (N.ltb_spec (code y) (code x));
    auto; lia.
Qed.

Lemma lex_leb_trans a : forall b c,
  lex_leb a b = true -> lex_leb b c = true -> lex_leb a c = true.
Proof.
  induction a as [|x a IH]; intros [|y b] [|z c]; cbn [lex_leb]; auto;
    try discriminate.
  destruct (N.ltb_spec (code x) (code y)), (N.ltb_spec (code y) (code x)),
    (N.ltb_spec (code y) (code z)), (N.ltb_spec (code z) (code y)),
    (N.ltb_spec (code x) (code z)), (N.ltb_spec (code z) (code x));
    intros Hab Hbc; try discriminate; try reflexivity; try lia.
  by eapply IH.
Qed.

Lemma key_le_refl a : key_le a a.
Proof. apply lex_leb_refl. Qed.

Lemma key_le_total a b : key_le a b \/ key_le b a.
Proof. apply lex_leb_total. Qed.

Lemma key_le_trans a b c : key_le a b -> key_le b c -> key_le a c.
Proof. apply lex_leb_trans. Qed.

(** ** Insertion *)

Lemma insert_by_key_perm c l : Permutation (insert_by_key c l) (c :: l).
Proof.
  induction l as [|d l IH]; cbn [insert_by_key]; [reflexivity|].
  destruct (leb (sort_key c) (sort_key d)); [reflexivity|].
  rewrite IH. apply perm_swap.
Qed.

Lemma insert_by_key_sorted c l :
  StronglySorted key_le l -> StronglySorted key_le (insert_by_key c l).
Proof.
  induction 1 as [|d l Hs IH Hd]; cbn [insert_by_key].
  - repeat constructor.
  - destruct (leb (sort_key c) (sort_key d)) eqn:E.
    + constructor; [by constructor|].
      constructor; [exact E|].
      eapply Forall_impl; [exact Hd|].
      intros e He. by eapply key_le_trans.
    + constructor; [exact IH|].
      rewrite (insert_by_key_perm c l). constructor; [|exact Hd].
      destruct (key_le_total c d) as [H|H]; [|exact H].
      unfold key_le in H. congruence.
Qed.

(** Insertion leaves the elements of any one key in their order, the new
    element first. *)
Lemma insert_by_key_filter (k : string) c l :
  List.filter (fun x => String.eqb (sort_key x) k) (insert_by_key c l) =
  List.filter (fun x => String.eqb (sort_key x) k) (c :: l).
Proof.
  induction l as [|d l IH]; cbn [insert_by_key]; [reflexivity|].
  destruct (leb (sort_key c) (sort_key d)) eqn:E; [reflexivity|].
  cbn [List.filter] in *. rewrite IH.
  destruct (String.eqb (sort_key c) k) eqn:Ec,
           (String.eqb (sort_key d) k) eqn:Ed; try reflexivity.
  apply String.eqb_eq in Ec, Ed. rewrite Ec, Ed in E.
  unfold leb in E. by rewrite lex_leb_refl in E.
Qed.

Lemma sort_files_perm l : Permutation (sort_files l) l.
Proof.
  induction l as [|c l IH]; cbn; [reflexivity|].
  rewrite insert_by_key_perm. by constructor.
Qed.

Lemma sort_files_sorted l : StronglySorted key_le (sort_files l).
Proof.
  induction l as [|c l IH]; cbn; [constructor|].
  by apply insert_by_key_sorted.
Qed.

Lemma sort_files_stable (k : string) l :
  List.filter (fun x => String.eqb (sort_key x) k) (sort_files l) =
  List.filter (fun x => String.eqb (sort_key x) k) l.
Proof.
  induction l as [|c l IH]; [reflexivity|].
  change (sort_files (c :: l)) with (insert_by_key c (sort_files l)).
  rewrite insert_by_key_filter. cbn [List.filter]. by rewrite IH.
Qed.

Lemma filter_sorted (f : candidate -> bool) l :
  StronglySorted key_le l -> StronglySorted key_le (List.filter f l).
Proof.
  induction 1 as [|d l Hs IH Hd]; cbn [List.filter]; [constructor|].
  destruct (f d); [|exact IH].
  constructor; [exact IH|].
  apply List.Forall_forall. intros x Hx. apply List.filter_In in Hx as [Hx _].
  by apply (proj1 (List.Forall_forall _ _) Hd).
Qed.

End LoopFacts.


(** C5, as the code has it.  The size test is [max_bytes > 0 and
    size > max_bytes].  With a positive limit, a file larger than the limit
    (so one of [max_bytes + 1] bytes) is counted as too large after the
    [stat] alone: nothing else is done to it, the sniffer does not run.  A
    file of at most the limit (so one of exactly [max_bytes] bytes), and any
    file when the limit is zero or negative, is not counted as too large: it
    goes to the sniffer, and it is written when the sniffer says text. *)
Theorem size_limit_boundary :
  forall (cfg : config) (st : Pack.run_state) (fp : Pack.candidate) (size : Z),
    FS.st_size (Pack.c_file fp) = Some size ->
    ((0 < max_bytes cfg < size)%Z ->
       Pack.process_file cfg st fp =
         Pack.RunState (Pack.bump_too_large (Pack.counts st)) (Pack.emitted st)
           (Pack.trace st ++ [Pack.IoStat (Pack.rel_str fp)]))
    /\ ((max_bytes cfg <= 0 \/ size <= max_bytes cfg)%Z ->
          Pack.skipped_too_large (Pack.counts (Pack.process_file cfg st fp)) =
            Pack.skipped_too_large (Pack.counts st)
          /\ In (Pack.IoSniff (Pack.rel_str fp))
               (Pack.trace (Pack.process_file cfg st fp))
          /\ (Sniff.is_probably_binary (FS.data (Pack.c_file fp))
                Pack.sniff_bytes = false ->
              Pack.emitted (Pack.process_file cfg st fp) =
                Pack.emitted st ++ [fp])).
Proof.
  intros cfg st fp size Hsize. unfold Pack.process_file. rewrite Hsize. split.
  - intros [Hpos Hbig].
    assert (E : ((0 <? max_bytes cfg)%Z && (max_bytes cfg <? size)%Z) = true).
    { apply andb_true_intro. split; apply Z.ltb_lt; lia. }
    by rewrite E.
  - intros Hok.
    assert (E : ((0 <? max_bytes cfg)%Z && (max_bytes cfg <? size)%Z) = false).
    { apply andb_false_iff. destruct Hok as [H|H];
        [left | right]; apply Z.ltb_ge; lia. }
    rewrite E.
    destruct (Sniff.is_probably_binary (FS.data (Pack.c_file fp)) Pack.sniff_bytes)
      eqn:Eb.
    + cbn. split; [reflexivity|]. split; [|discriminate].
      apply in_or_app. right. left. reflexivity.
    + unfold Sniff.is_probably_binary in Eb.
      destruct (FS.data (Pack.c_file fp)) as [bytes|]; [|discriminate Eb].
      cbn. split; [reflexivity|]. split; [|reflexivity].
      apply in_or_app. left. apply in_or_app. right. left. reflexivity.
Qed.

(** C5, instances: with a limit of ten bytes a file of eleven bytes is
    counted as too large after its [stat] and a file of ten bytes is
    written; with the limit at zero a file of a billion bytes is written. *)
Lemma size_limit_ten_witness :
  Pack.process_file (Scenario.limit_config 10) Pack.initial
    (Pack.Candidate [] "big.rs" (Scenario.sized_file 11)) =
    Pack.RunState (Pack.Counters 0 0 1 0) [] [Pack.IoStat "big.rs"]
  /\ Pack.emitted
       (Pack.process_file (Scenario.limit_config 10) Pack.initial
          (Pack.Candidate [] "fit.rs" (Scenario.sized_file 10))) =
     [Pack.Candidate [] "fit.rs" (Scenario.sized_file 10)]
  /\ Pack.emitted
       (Pack.process_file (Scenario.limit_config 0) Pack.initial
          (Pack.Candidate [] "huge.rs" (Scenario.sized_file 1000000000))) =
     [Pack.Candidate [] "huge.rs" (Scenario.sized_file 1000000000)].
Proof.
  split; [|split].
  - apply (proj1 (size_limit_boundary (Scenario.limit_config 10) Pack.initial
             (Pack.Candidate [] "big.rs" (Scenario.sized_file 11)) 11 eq_refl)).
    cbn. lia.
  - apply (proj2 (size_limit_boundary (Scenario.limit_config 10) Pack.initial
             (Pack.Candidate [] "fit.rs" (Scenario.sized_file 10)) 10 eq_refl)).
    + right. cbn. lia.
    + vm_compute. reflexivity.
  - apply (proj2 (size_limit_boundary (Scenario.limit_config 0) Pack.initial
             (Pack.Candidate [] "huge.rs" (Scenario.sized_file 1000000000))
             1000000000 eq_refl)).
    + left. cbn. lia.
    + vm_compute. reflexivity.
Defined.

(** C5, refuted as stated for a limit that is not zero: with the limit at
    -1 a file of 0 = -1 + 1 bytes is not counted as too large; it is
    sniffed, read and written. *)
Lemma negative_limit_keeps_file :
  max_bytes (Scenario.limit_config (-1)) <> 0%Z
  /\ FS.st_size (FS.File (Some 0%Z) (Some [])) =
       Some (max_bytes (Scenario.limit_config (-1)) + 1)%Z
  /\ Pack.process_file (Scenario.limit_config (-1)) Pack.initial
       (Pack.Candidate [] "empty.rs" (FS.File (Some 0%Z) (Some []))) =
     Pack.RunState (Pack.Counters 1 0 0 0)
       [Pack.Candidate [] "empty.rs" (FS.File (Some 0%Z) (Some []))]
       [Pack.IoStat "empty.rs"; Pack.IoSniff "empty.rs";
        Pack.IoReadText "empty.rs"].
Proof.
  split; [|split].
  - intros E. discriminate E.
  - reflexivity.
  - vm_compute. reflexivity.
Qed.

(** C6, as the code has it.  [files.sort] rearranges the list (it is a
    permutation of it) in ascending order of the lower-case, slash
    normalised relative path, and it is stable: the files of any one key
    keep the order in which the walk produced them; no second comparison
    breaks a tie.  The files written are a sublist of the sorted list, so
    they are in ascending key order too. *)
Theorem sort_files_ascending_stable :
  forall l : list Pack.candidate,
    Permutation (Pack.sort_files l) l
    /\ StronglySorted Pack.key_le (Pack.sort_files l)
    /\ (forall k : string,
          List.filter (fun x => String.eqb (Pack.sort_key x) k) (Pack.sort_files l) =
          List.filter (fun x => String.eqb (Pack.sort_key x) k) l)
    /\ (forall cfg : config,
          StronglySorted Pack.key_le
            (Pack.emitted
               (fold_left (Pack.process_file cfg) (Pack.sort_files l)
                  Pack.initial))).
Proof.
  intros l. split; [|split; [|split]].
  - apply sort_files_perm.
  - apply sort_files_sorted.
  - intros k. apply sort_files_stable.
  - intros cfg. rewrite emitted_fold. cbn [Pack.emitted Pack.initial app].
    apply filter_sorted, sort_files_sorted.
Qed.

(** C6, refuted as stated: [a.rs] and [A.rs] have the same key; listed in
    this order they stay in this order, in the sort and in the run, though
    [A.rs] is the smaller path byte for byte. *)
Lemma case_tie_keeps_walk_order :
  Pack.sort_key Scenario.lower_first = Pack.sort_key Scenario.upper_second
  /\ PyStr.ltb (Pack.rel_str Scenario.upper_second)
       (Pack.rel_str Scenario.lower_first) = true
  /\ Pack.sort_files [Scenario.lower_first; Scenario.upper_second] =
       [Scenario.lower_first; Scenario.upper_second]
  /\ (Pack.emitted <$> Pack.main default_config Scenario.case_pair 0 1) =
       Some [Scenario.lower_first; Scenario.upper_second].
Proof.
  split; [|split; [|split]]; vm_compute; reflexivity.
Qed.


(* ===================================================================== *)
(** * Properties of the walk                                              *)
(* ===================================================================== *)

Section WalkFacts.
Import PyStr FS Pack.

(** ** Unfolding *)

Lemma walk_unfold fs fl oy depth dirpath d :
  walk fs fl oy (S depth) dirpath d =
    match fs !! d with
    | None => ([], true)
    | Some entries =>
        let sub :=
          walk_subdirs fl
            (fun name target => walk fs fl oy depth (dirpath ++ [name]) target)
            entries (oy (omap dir_name entries)) in
        (Visit dirpath (oy (omap dir_name entries)) (omap file_of entries)
           :: sub.1, sub.2)
    end.
Proof.
  cbn [walk]. destruct (fs !! d) as [entries|]; [|reflexivity].
  cbv zeta. by destruct (walk_subdirs _ _ _ _).
Qed.

Lemma walk_subdirs_cons fl rec entries name rest :
  walk_subdirs fl rec entries (name :: rest) =
    if (descend fl rec entries name).2
    then ((descend fl rec entries name).1
            ++ (walk_subdirs fl rec entries rest).1,
          (walk_subdirs fl rec entries rest).2)
    else ((descend fl rec entries name).1, false).
Proof.
  cbn [walk_subdirs].
  destruct (descend fl rec entries name) as [v1 [|]]; cbn [fst snd];
    [|reflexivity].
  by destruct (walk_subdirs fl rec entries rest).
Qed.

(** ** The pruning loop is a filter *)

Lemma remove_first_skip x pre post :
  ~ In x pre -> remove_first x (pre ++ x :: post) = pre ++ post.
Proof.
  induction pre as [|y pre IH]; intros Hn; cbn [app remove_first].
  - by rewrite String.eqb_refl.
  - destruct (String.eqb_spec y x) as [->|Hne].
    + exfalso. apply Hn. by left.
    + f_equal. apply IH. intros Hin. apply Hn. by right.
Qed.

Lemma prune_loop cfg todo : forall pre,
  Forall (fun d => lower d ∉ exclude_dirs_norm cfg) pre ->
  fold_left
    (fun acc d =>
       if bool_decide (lower d ∈ exclude_dirs_norm cfg)
       then remove_first d acc else acc)
    todo (pre ++ todo) =
  pre ++ List.filter
           (fun d => negb (bool_decide (lower d ∈ exclude_dirs_norm cfg))) todo.
Proof.
  induction todo as [|d todo IH]; intros pre Hpre; [reflexivity|].
  cbn [fold_left List.filter]. case_bool_decide as Hd; cbn [negb].
  - rewrite remove_first_skip; [by apply IH|].
    intros Hin. by apply (proj1 (List.Forall_forall _ _) Hpre) in Hin.
  - replace (pre ++ d :: todo) with ((pre ++ [d]) ++ todo)
      by (by rewrite <- app_assoc).
    rewrite IH; [by rewrite <- app_assoc|].
    apply Forall_app. split; [exact Hpre | by constructor].
Qed.

Lemma prune_filter cfg dirnames :
  prune cfg dirnames =
    List.filter
      (fun d => negb (bool_decide (lower d ∈ exclude_dirs_norm cfg))) dirnames.
Proof. apply (prune_loop cfg dirnames []). constructor. Qed.

Lemma prune_kept cfg dirnames :
  Forall (fun d => lower d ∉ exclude_dirs_norm cfg) (prune cfg dirnames).
Proof.
  rewrite prune_filter. apply List.Forall_forall. intros d Hd.
  apply List.filter_In in Hd as [_ Hd]. apply negb_true_iff in Hd.
  by apply bool_decide_eq_false in Hd.
Qed.

Lemma prune_nil cfg : prune cfg [] = [].
Proof. reflexivity. Qed.

(** ** The directories on the path of a visit *)

Lemma walk_subdirs_visits fl (P : visit -> Prop) rec entries names :
  (forall name target, In name names -> Forall P (rec name target).1) ->
  Forall P (walk_subdirs fl rec entries names).1.
Proof.
  induction names as [|name rest IH]; intros Hrec; [constructor|].
  rewrite walk_subdirs_cons.
  assert (Hd : Forall P (descend fl rec entries name).1).
  { unfold descend. destruct (find_dir entries name) as [[islink target]|];
      [|constructor].
    destruct (fl || negb islink); [|constructor]. apply Hrec. by left. }
  destruct ((descend fl rec entries name).2); cbn [fst]; [|exact Hd].
  apply Forall_app. split; [exact Hd|].
  apply IH. intros n t Hn. apply Hrec. by right.
Qed.

Lemma walk_dirpaths fs fl oy (Q : string -> Prop) :
  (forall l, Forall Q (oy l)) ->
  forall depth dirpath d,
    Forall Q dirpath ->
    Forall (fun v => Forall Q (v_dirpath v)) (walk fs fl oy depth dirpath d).1.
Proof.
  intros Hoy. induction depth as [|depth IH]; intros dirpath d Hp;
    [constructor|].
  rewrite walk_unfold. destruct (fs !! d) as [entries|]; [|constructor].
  cbv zeta. cbn [fst]. constructor; [exact Hp|].
  apply walk_subdirs_visits. intros name target Hin. apply IH.
  apply Forall_app. split; [exact Hp|]. constructor; [|constructor].
  by apply (proj1 (List.Forall_forall _ _) (Hoy (omap dir_name entries))).
Qed.

Lemma candidates_of_dirs cfg v c :
  In c (candidates_of cfg v) -> c_dirs c = v_dirpath v.
Proof.
  unfold candidates_of. intros Hc. apply list_elem_of_In in Hc.
  apply list_elem_of_omap in Hc as (nf & _ & Hnf).
  destruct (Select.selected cfg (v_dirpath v) nf.1); [|discriminate Hnf].
  by injection Hnf as <-.
Qed.

Lemma iter_files_dirs cfg fs root depth c :
  In c (iter_files cfg fs root depth).1 ->
  Forall (fun d => lower d ∉ exclude_dirs_norm cfg) (c_dirs c).
Proof.
  unfold iter_files.
  pose proof (walk_dirpaths fs (follow_symlinks cfg) (prune cfg) _
                (prune_kept cfg) depth [] root ltac:(constructor)) as Hw.
  destruct (walk fs (follow_symlinks cfg) (prune cfg) depth [] root)
    as [visits ret]. cbn [fst] in *.
  intros Hc. apply in_flat_map in Hc as (v & Hv & Hc).
  rewrite (candidates_of_dirs _ _ _ Hc).
  by apply (proj1 (List.Forall_forall _ _) Hw).
Qed.

(** The files written by [main] are among those [iter_files] yields. *)
Lemma main_emitted cfg fs root depth st c :
  main cfg fs root depth = Some st ->
  In c (emitted st) -> In c (iter_files cfg fs root depth).1.
Proof.
  unfold main. destruct (iter_files cfg fs root depth) as [files [|]];
    [|discriminate].
  intros [= <-]. rewrite emitted_fold. cbn [emitted initial app fst].
  intros Hc. apply List.filter_In in Hc as [Hc _].
  by apply (Permutation_in _ (sort_files_perm files)).
Qed.

(** ** Return of the walk *)






End WalkFacts.


Section TreeFacts.
Import PyStr FS Pack.

(** ** An unreadable directory and an empty one *)

Lemma walk_subdirs_candidates cfg fl rec1 rec2 entries names :
  (forall name target,
      flat_map (candidates_of cfg) (rec1 name target).1 =
        flat_map (candidates_of cfg) (rec2 name target).1
      /\ (rec1 name target).2 = (rec2 name target).2) ->
  flat_map (candidates_of cfg) (walk_subdirs fl rec1 entries names).1 =
    flat_map (candidates_of cfg) (walk_subdirs fl rec2 entries names).1
  /\ (walk_subdirs fl rec1 entries names).2 =
       (walk_subdirs fl rec2 entries names).2.
Proof.
  intros Hrec. induction names as [|name rest [IH1 IH2]];
    [split; reflexivity|].
  rewrite !walk_subdirs_cons.
  assert (Hd : flat_map (candidates_of cfg) (descend fl rec1 entries name).1 =
                 flat_map (candidates_of cfg) (descend fl rec2 entries name).1
               /\ (descend fl rec1 entries name).2 =
                    (descend fl rec2 entries name).2).
  { unfold descend. destruct (find_dir entries name) as [[islink target]|];
      [|split; reflexivity].
    destruct (fl || negb islink); [apply Hrec | split; reflexivity]. }
  destruct Hd as [Hd1 Hd2]. rewrite Hd2.
  destruct ((descend fl rec2 entries name).2); cbn [fst snd].
  - rewrite !flat_map_app, Hd1, IH1, IH2. split; reflexivity.
  - rewrite Hd1. split; reflexivity.
Qed.

Lemma walk_unreadable_like_empty cfg (fs : filesystem) fl (d : dir_id) depth :
  forall dirpath x,
    flat_map (candidates_of cfg)
      (walk (delete d fs) fl (prune cfg) depth dirpath x).1 =
    flat_map (candidates_of cfg)
      (walk (<[d:=[]]> fs) fl (prune cfg) depth dirpath x).1
    /\ (walk (delete d fs) fl (prune cfg) depth dirpath x).2 =
       (walk (<[d:=[]]> fs) fl (prune cfg) depth dirpath x).2.
Proof.
  induction depth as [|depth IH]; intros dirpath x; [split; reflexivity|].
  rewrite !walk_unfold. unfold filesystem in *.
  destruct (decide (x = d)) as [->|Hne].
  - rewrite lookup_delete_eq, lookup_insert_eq. cbv zeta.
    change (omap dir_name (@nil entry)) with (@nil string).
    rewrite prune_nil. split; reflexivity.
  - rewrite lookup_delete_ne, lookup_insert_ne by done.
    destruct (fs !! x) as [entries|]; [|split; reflexivity].
    cbv zeta. cbn [fst snd flat_map].
    destruct (walk_subdirs_candidates cfg fl
                (fun name target =>
                   walk (delete d fs) fl (prune cfg) depth (dirpath ++ [name]) target)
                (fun name target =>
                   walk (<[d:=[]]> fs) fl (prune cfg) depth (dirpath ++ [name]) target)
                entries (prune cfg (omap dir_name entries))) as [H1 H2].
    { intros name target. apply IH. }
    rewrite H1, H2. split; reflexivity.
Qed.

(** ** The tree as path resolution presents it *)






(** The link [loop] of the root points back to the root: with links
    followed the walk produces 41 triples, and in the last one, reached
    through 40 links, [loop] stands with the files. *)
Lemma cyclic_view_walk :
  (walk (Os.view Os.SYMLOOP_MAX Scenario.cyclic) true
     (prune Scenario.following_config) 41 [] 0).2 = true
  /\ length (walk (Os.view Os.SYMLOOP_MAX Scenario.cyclic) true
               (prune Scenario.following_config) 41 [] 0).1 = 41
  /\ map (fun v => (v_dirnames v, map fst (v_files v)))
       (drop 39 (walk (Os.view Os.SYMLOOP_MAX Scenario.cyclic) true
                   (prune Scenario.following_config) 41 [] 0).1) =
     [ (["loop"], ["main.rs"]); ([], ["main.rs"; "loop"]) ].
Proof. split; [|split]; vm_compute; reflexivity. Qed.


End TreeFacts.


(** C3.  No path yielded by [iter_files], and so no file written by [main],
    has among its directories below the root one whose name equals, case
    letters apart, a name of the excluded-directory set.  The configuration
    is arbitrary: include globs, preferred or not, do not bring such a file
    back.  The statement reads the directories off the path, so a file that
    is reached through a link of another name is not concerned. *)
Theorem excluded_dirs_never_yield :
  forall (cfg : config) (fs : FS.filesystem) (root : FS.dir_id) (depth : nat),
    (forall (c : Pack.candidate) (name d : string),
        In c (Pack.iter_files cfg fs root depth).1 ->
        name ∈ exclude_dirs cfg ->
        In d (Pack.c_dirs c) ->
        PyStr.lower d <> PyStr.lower name)
    /\ (forall (st : Pack.run_state) (c : Pack.candidate) (name d : string),
          Pack.main cfg fs root depth = Some st ->
          In c (Pack.emitted st) ->
          name ∈ exclude_dirs cfg ->
          In d (Pack.c_dirs c) ->
          PyStr.lower d <> PyStr.lower name).
Proof.
  intros cfg fs root depth.
  assert (H : forall c name d,
             In c (Pack.iter_files cfg fs root depth).1 ->
             name ∈ exclude_dirs cfg ->
             In d (Pack.c_dirs c) ->
             PyStr.lower d <> PyStr.lower name).
  { intros c name d Hc Hname Hd E.
    pose proof (iter_files_dirs cfg fs root depth c Hc) as Hall.
    apply (proj1 (List.Forall_forall _ _) Hall d Hd).
    unfold Pack.exclude_dirs_norm. rewrite E. by apply elem_of_map_2. }
  split; [exact H|].
  intros st c name d Hmain Hc. apply H.
  by eapply main_emitted.
Qed.

(** C3, instance: with include glob [**/*.o] preferred, [build/output.o]
    would pass the selection, but no yielded path lies below [build]. *)
Lemma excluded_build_witness :
  Select.selected Scenario.objects_config ["build"] "output.o" = true
  /\ Forall (fun c => ~ In "build" (Pack.c_dirs c))
       (Pack.iter_files Scenario.objects_config Scenario.project 0 2).1.
Proof.
  split; [vm_compute; reflexivity|].
  apply List.Forall_forall. intros c Hc Hd.
  apply (proj1 (excluded_dirs_never_yield Scenario.objects_config
                  Scenario.project 0 2) c "build" "build" Hc); [|exact Hd|reflexivity].
  compute_done.
Defined.



(** C8, as the code has it.  [os.walk] is called without [onerror]: a
    directory that cannot be listed produces nothing, the walk goes on with
    what follows, and nothing records the failure.  The paths yielded, and
    the whole result of [main] with its four counters, are those of the same
    tree with that directory empty. *)
Theorem unreadable_dir_like_empty_dir :
  forall (cfg : config) (fs : FS.filesystem) (root d : FS.dir_id) (depth : nat),
    Pack.iter_files cfg (delete d fs) root depth =
      Pack.iter_files cfg (<[d:=[]]> fs) root depth
    /\ Pack.main cfg (delete d fs) root depth =
         Pack.main cfg (<[d:=[]]> fs) root depth.
Proof.
  intros cfg fs root d depth.
  assert (H : Pack.iter_files cfg (delete d fs) root depth =
              Pack.iter_files cfg (<[d:=[]]> fs) root depth).
  { unfold Pack.iter_files.
    destruct (walk_unreadable_like_empty cfg fs (follow_symlinks cfg) d depth
                [] root) as [H1 H2].
    destruct (FS.walk (delete d fs) _ _ _ _ _) as [v1 r1].
    destruct (FS.walk (<[d:=[]]> fs) _ _ _ _ _) as [v2 r2].
    cbn [fst snd] in *. by rewrite H1, H2. }
  split; [exact H|]. unfold Pack.main. by rewrite H.
Qed.

(** C8, refuted as stated: [secret] cannot be listed; the walk goes on to
    [src], the run writes [src/main.rs] and counts no error, and its result
    is the one of the tree where [secret] is an empty directory. *)
Lemma unreadable_dir_not_counted :
  Scenario.with_unreadable !! (1 : FS.dir_id) = None
  /\ (Pack.counts <$> Pack.main default_config Scenario.with_unreadable 0 2) =
       Some (Pack.Counters 1 0 0 0)
  /\ (map Pack.rel_str
        <$> (Pack.emitted
               <$> Pack.main default_config Scenario.with_unreadable 0 2)) =
       Some ["src/main.rs"]
  /\ Pack.main default_config Scenario.with_unreadable 0 2 =
       Pack.main default_config Scenario.with_empty 0 2.
Proof.
  split; [|split; [|split]]; vm_compute; reflexivity.
Qed.


(* ===================================================================== *)
(** * Properties of the string primitives                                 *)
(* ===================================================================== *)

Section StringFacts.
Import PyStr.

Lemma str_chars s : str (chars s) = s.
Proof. apply string_of_list_ascii_of_string. Qed.

Lemma append_String c a b :
  (String c a ++ b)%string = String c (a ++ b)%string.
Proof. reflexivity. Qed.

Lemma chars_app a b : chars (a ++ b)%string = chars a ++ chars b.
Proof.
  induction a as [|c a IH]; [reflexivity|]. rewrite append_String.
  change (chars (String c (a ++ b)%string)) with (c :: chars (a ++ b)%string).
  by rewrite IH.
Qed.

Lemma str_app a b : str (a ++ b) = (str a ++ str b)%string.
Proof.
  induction a as [|c a IH]; [reflexivity|].
  change (str ((c :: a) ++ b)) with (String c (str (a ++ b))).
  by rewrite IH.
Qed.

Lemma truthy_str l : truthy (str l) = Select.nonempty l.
Proof. by destruct l. Qed.

Lemma length_lstrip_by p l : length (lstrip_by p l) <= length l.
Proof.
  induction l as [|c l IH]; [reflexivity|]. cbn [lstrip_by].
  destruct (p c); cbn [length]; lia.
Qed.

Lemma lstrip_by_idem p l : lstrip_by p (lstrip_by p l) = lstrip_by p l.
Proof.
  induction l as [|c l IH]; [reflexivity|]. cbn [lstrip_by].
  destruct (p c) eqn:E; [exact IH|]. cbn [lstrip_by]. by rewrite E.
Qed.

Lemma lstrip_by_snoc p c l :
  p c = false -> exists r, lstrip_by p (l ++ [c]) = r ++ [c].
Proof.
  intros Hc. induction l as [|x l [r IH]]; cbn [app lstrip_by].
  - rewrite Hc. by exists [].
  - destruct (p x); [by exists r|]. by exists (x :: l).
Qed.

Lemma lstrip_by_fixed p c l :
  lstrip_by p (c :: l) = c :: l -> p c = false.
Proof.
  cbn [lstrip_by]. destruct (p c); [|reflexivity].
  intros E. pose proof (length_lstrip_by p l) as H. rewrite E in H.
  cbn [length] in H. lia.
Qed.

Lemma lstrip_rstrip p l :
  lstrip_by p l = l -> lstrip_by p (rstrip_by p l) = rstrip_by p l.
Proof.
  destruct l as [|c l]; [reflexivity|]. intros E.
  apply lstrip_by_fixed in E. unfold rstrip_by. cbn [rev].
  destruct (lstrip_by_snoc p c (rev l) E) as [r ->].
  rewrite rev_app_distr. cbn [rev app lstrip_by]. by rewrite E.
Qed.

Lemma rstrip_by_idem p l : rstrip_by p (rstrip_by p l) = rstrip_by p l.
Proof.
  unfold rstrip_by. by rewrite rev_involutive, lstrip_by_idem.
Qed.

(** Stripping a stripped string changes nothing. *)
Lemma strip_idem s : strip (strip s) = strip s.
Proof.
  unfold strip. rewrite chars_str.
  rewrite (lstrip_rstrip _ _ (lstrip_by_idem is_space (chars s))).
  by rewrite rstrip_by_idem.
Qed.

Lemma lower_String c s : lower (String c s) = String (lower_char c) (lower s).
Proof. reflexivity. Qed.

Lemma lower_app a b : lower (a ++ b) = (lower a ++ lower b)%string.
Proof.
  induction a as [|c a IH]; [reflexivity|].
  by rewrite append_String, !lower_String, IH, append_String.
Qed.

Lemma lower_char_idem c : lower_char (lower_char c) = lower_char c.
Proof. destruct c as [[] [] [] [] [] [] [] []]; reflexivity. Qed.

Lemma lower_idem s : lower (lower s) = lower s.
Proof.
  induction s as [|c s IH]; [reflexivity|].
  by rewrite !lower_String, lower_char_idem, IH.
Qed.

Lemma length_lower s : String.length (lower s) = String.length s.
Proof.
  induction s as [|c s IH]; [reflexivity|].
  rewrite lower_String. cbn [String.length]. by rewrite IH.
Qed.

Lemma truthy_lower s : truthy (lower s) = truthy s.
Proof. by destruct s. Qed.

Lemma replace_char_String a b c s :
  replace_char a b (String c s) =
    String (if Ascii.eqb c a then b else c) (replace_char a b s).
Proof. reflexivity. Qed.

End StringFacts.

(* ===================================================================== *)
(** * Properties of the ignore file and of the option lists               *)
(* ===================================================================== *)

Section IgnoreFacts.
Import PyStr IgnoreFile Args.

Lemma pattern_of_line_Some line p :
  pattern_of_line line = Some p ->
  p = strip line /\ truthy p = true /\ startswith_char "#" p = false.
Proof.
  unfold pattern_of_line.
  destruct (truthy (strip line)) eqn:Et, (startswith_char "#" (strip line)) eqn:Es;
    cbn [negb orb]; intros [= <-]; auto.
Qed.

Lemma clean_globs_cons g globs :
  Select.clean_globs (g :: globs) =
    if truthy (strip g) then strip g :: Select.clean_globs globs
    else Select.clean_globs globs.
Proof.
  unfold Select.clean_globs. destruct (truthy (strip g)) eqn:E.
  - rewrite filter_cons_True; [reflexivity|]. cbv beta. rewrite E. exact I.
  - rewrite filter_cons_False; [reflexivity|]. cbv beta. rewrite E. intros [].
Qed.

Lemma clean_globs_app l1 l2 :
  Select.clean_globs (l1 ++ l2) = Select.clean_globs l1 ++ Select.clean_globs l2.
Proof.
  induction l1 as [|g l1 IH]; [reflexivity|]. cbn [app].
  rewrite !clean_globs_cons, IH. by destruct (truthy (strip g)).
Qed.

Lemma clean_globs_fixed l :
  Forall (fun p => strip p = p /\ truthy p = true) l ->
  Select.clean_globs l = l.
Proof.
  induction 1 as [|p l [Hs Ht] _ IH]; [reflexivity|].
  by rewrite clean_globs_cons, Hs, Ht, IH.
Qed.

Lemma clean_globs_clean l :
  Forall (fun p => strip p = p /\ truthy p = true) (Select.clean_globs l).
Proof.
  induction l as [|g l IH]; [constructor|]. rewrite clean_globs_cons.
  destruct (truthy (strip g)) eqn:E; [|exact IH].
  constructor; [|exact IH]. split; [apply strip_idem | exact E].
Qed.

Lemma read_ignore_file_clean text :
  Forall (fun p => strip p = p /\ truthy p = true) (_read_ignore_file text).
Proof.
  apply List.Forall_forall. intros p Hp. destruct text as [t|]; [|destruct Hp].
  cbn [_read_ignore_file] in Hp. apply list_elem_of_In in Hp.
  apply list_elem_of_omap in Hp as (line & _ & Hl).
  apply pattern_of_line_Some in Hl as (-> & Ht & _).
  split; [apply strip_idem | exact Ht].
Qed.

(** ** Line by line *)

Lemma not_break_not_cr c : is_line_break c = false -> Ascii.eqb c cr = false.
Proof.
  intros H. destruct (Ascii.eqb_spec c cr) as [->|]; [|reflexivity].
  discriminate H.
Qed.

Lemma splitlines_from_line a : forall b cur,
  forallb (fun c => negb (is_line_break c)) a = true ->
  splitlines_from (a ++ lf :: b) cur = (rev cur ++ a) :: splitlines_from b [].
Proof.
  induction a as [|x a IH]; intros b cur Ha.
  - cbn [app splitlines_from]. by rewrite app_nil_r.
  - cbn [forallb] in Ha. apply andb_prop in Ha as [Hx Ha].
    apply negb_true_iff in Hx.
    cbn [app splitlines_from]. rewrite (not_break_not_cr x Hx), Hx.
    rewrite (IH b (x :: cur) Ha). cbn [rev]. by rewrite <- app_assoc.
Qed.

Lemma splitlines_line line rest :
  forallb (fun c => negb (is_line_break c)) (chars line) = true ->
  splitlines (line ++ Format.nl ++ rest) = line :: splitlines rest.
Proof.
  intros H. unfold splitlines.
  rewrite chars_app. change (chars (Format.nl ++ rest)) with (lf :: chars rest).
  rewrite (splitlines_from_line _ _ [] H). cbn [rev app map].
  by rewrite str_chars.
Qed.

(** ** Splitting at commas *)

Lemma split_from_line sep a : forall b cur,
  forallb (fun c => negb (Ascii.eqb c sep)) a = true ->
  split_from sep (a ++ sep :: b) cur = (rev cur ++ a) :: split_from sep b [].
Proof.
  induction a as [|x a IH]; intros b cur Ha.
  - cbn [app split_from]. by rewrite Ascii.eqb_refl, app_nil_r.
  - cbn [forallb] in Ha. apply andb_prop in Ha as [Hx Ha].
    apply negb_true_iff in Hx. cbn [app split_from]. rewrite Hx.
    rewrite (IH b (x :: cur) Ha). cbn [rev]. by rewrite <- app_assoc.
Qed.

Lemma split_from_last sep a : forall cur,
  forallb (fun c => negb (Ascii.eqb c sep)) a = true ->
  split_from sep a cur = [rev cur ++ a].
Proof.
  induction a as [|x a IH]; intros cur Ha.
  - cbn [split_from]. by rewrite app_nil_r.
  - cbn [forallb] in Ha. apply andb_prop in Ha as [Hx Ha].
    apply negb_true_iff in Hx. cbn [split_from]. rewrite Hx.
    rewrite (IH (x :: cur) Ha). cbn [rev]. by rewrite <- app_assoc.
Qed.

Lemma no_comma_chars s :
  Plain.has_char "," s = false ->
  forallb (fun c => negb (Ascii.eqb c ",")) (chars s) = true.
Proof.
  unfold Plain.has_char. induction (chars s) as [|c l IH]; [reflexivity|].
  cbn [existsb forallb]. rewrite (Ascii.eqb_sym "," c).
  destruct (Ascii.eqb c ","); [discriminate|]. exact IH.
Qed.

Lemma split_join items :
  items <> [] ->
  Forall (fun s => Plain.has_char "," s = false) items ->
  split "," (join "," items) = items.
Proof.
  intros Hne Hall. induction Hall as [|p items Hp Hall IH]; [done|].
  destruct items as [|q items].
  - cbn [join]. unfold split.
    rewrite (split_from_last _ _ [] (no_comma_chars p Hp)).
    cbn [rev app map]. by rewrite str_chars.
  - change (join "," (p :: q :: items))
      with (p ++ "," ++ join "," (q :: items))%string.
    unfold split. rewrite chars_app.
    change (chars ("," ++ join "," (q :: items))%string)
      with (","%char :: chars (join "," (q :: items))).
    rewrite (split_from_line _ _ _ [] (no_comma_chars p Hp)).
    cbn [rev app map]. rewrite str_chars. f_equal.
    apply IH. discriminate.
Qed.

Lemma no_comma_stripped_spec s :
  Plain.no_comma_stripped s = true ->
  Plain.has_char "," s = false /\ strip s = s /\ truthy s = true.
Proof.
  unfold Plain.no_comma_stripped. intros H.
  apply andb_prop in H as [H Ht]. apply andb_prop in H as [Hc Hs].
  apply negb_true_iff in Hc. apply String.eqb_eq in Hs. auto.
Qed.

Lemma filter_truthy_fixed (f : string -> string) items :
  Forall (fun s => strip s = s /\ truthy s = true) items ->
  (forall s, truthy (f s) = truthy s) ->
  List.filter truthy (map (fun s => f (strip s)) items) = map f items.
Proof.
  intros Hall Hf. induction Hall as [|s items [Hs Ht] _ IH]; [reflexivity|].
  cbn [map List.filter]. rewrite Hs, Hf, Ht. by rewrite IH.
Qed.

End IgnoreFacts.


(** X1.  Whatever the ignore file holds, every pattern [_read_ignore_file]
    returns is non-empty, carries no surrounding white space and is not a
    comment line; an unreadable file gives no pattern. *)
Theorem ignore_file_patterns_clean :
  forall text : option string,
    Forall
      (fun p => p <> "" /\ PyStr.strip p = p
                /\ PyStr.startswith_char "#" p = false)
      (IgnoreFile._read_ignore_file text)
    /\ IgnoreFile._read_ignore_file None = [].
Proof.
  intros text. split; [|reflexivity].
  apply List.Forall_forall. intros p Hp. destruct text as [t|]; [|destruct Hp].
  cbn [IgnoreFile._read_ignore_file] in Hp. apply list_elem_of_In in Hp.
  apply list_elem_of_omap in Hp as (line & _ & Hl).
  apply pattern_of_line_Some in Hl as (-> & Ht & Hs).
  split; [|split; [apply strip_idem | exact Hs]].
  intros E. rewrite E in Ht. discriminate Ht.
Qed.

(** X2.  The ignore file is read line by line.  A first line, ended by a
    line feed, that is blank or whose first character after the leading
    white space is [#] has no effect on the result; any other first line
    contributes its text without the surrounding white space, ahead of the
    patterns of the rest of the file. *)
Theorem ignore_file_first_line :
  forall line rest : string,
    forallb (fun c => negb (IgnoreFile.is_line_break c)) (PyStr.chars line) = true ->
    (PyStr.strip line = "" \/ PyStr.startswith_char "#" (PyStr.strip line) = true ->
       IgnoreFile._read_ignore_file (Some (line ++ Format.nl ++ rest)%string) =
         IgnoreFile._read_ignore_file (Some rest))
    /\ (PyStr.strip line <> "" ->
        PyStr.startswith_char "#" (PyStr.strip line) = false ->
        IgnoreFile._read_ignore_file (Some (line ++ Format.nl ++ rest)%string) =
          PyStr.strip line :: IgnoreFile._read_ignore_file (Some rest)).
Proof.
  intros line rest Hline. unfold IgnoreFile._read_ignore_file.
  rewrite (splitlines_line line rest Hline).
  change (omap IgnoreFile.pattern_of_line (line :: IgnoreFile.splitlines rest))
    with (match IgnoreFile.pattern_of_line line with
          | Some p => p :: omap IgnoreFile.pattern_of_line (IgnoreFile.splitlines rest)
          | None => omap IgnoreFile.pattern_of_line (IgnoreFile.splitlines rest)
          end).
  unfold IgnoreFile.pattern_of_line. split.
  - intros [E|E]; [by rewrite E | rewrite E; by rewrite orb_true_r].
  - intros Hne Hs. rewrite Hs, orb_false_r.
    destruct (PyStr.strip line) as [|c s]; [done | reflexivity].
Qed.

(** X2, instance: a comment line, then the rest of the file. *)
Lemma ignore_file_comment_witness :
  IgnoreFile._read_ignore_file
    (Some ("  # build output" ++ Format.nl ++ "vendor/**" ++ Format.nl)%string) =
  IgnoreFile._read_ignore_file (Some ("vendor/**" ++ Format.nl)%string).
Proof.
  apply (proj1 (ignore_file_first_line "  # build output"
                  ("vendor/**" ++ Format.nl)%string eq_refl)).
  right. reflexivity.
Defined.

(** X3.  The patterns of the command line and of the ignore file reach
    [iter_files] already stripped and non-empty: the cleaning [iter_files]
    does again on its include and ignore globs leaves both lists as [main]
    built them, the patterns of the command line first. *)
Theorem globs_of_args_already_clean :
  forall a : Args.args,
    Select.clean_globs (include_globs (Args.config_of_args a)) =
      include_globs (Args.config_of_args a)
    /\ Select.clean_globs (ignore_globs (Args.config_of_args a)) =
         Args.globs_of (Args.arg_ignore_globs a)
         ++ match Args.arg_ignore_file a with
            | Some text => IgnoreFile._read_ignore_file text
            | None => []
            end.
Proof.
  intros a. cbn [Args.config_of_args include_globs ignore_globs]. split.
  - apply clean_globs_fixed, clean_globs_clean.
  - rewrite clean_globs_app. f_equal.
    + apply clean_globs_fixed, clean_globs_clean.
    + destruct (Args.arg_ignore_file a) as [text|]; [|reflexivity].
      apply clean_globs_fixed, read_ignore_file_clean.
Qed.

(** X4.  A comma separated option is read back as it was joined: for
    names without comma and without surrounding white space, none of them
    empty, the names read from their join with commas are these names, in
    order (and their lower-case forms where [main] lowers them).  So the
    default of [--exclude-dirs], [--exts] and [--ignore-exts], the sorted
    join of a table, gives back the table. *)
Theorem names_of_join :
  forall items : list string,
    forallb Plain.no_comma_stripped items = true ->
    Args.names_of (PyStr.join "," items) = items
    /\ Args.lower_names_of (PyStr.join "," items) = map PyStr.lower items.
Proof.
  intros items Hall.
  assert (Hf : Forall (fun s => Plain.has_char "," s = false
                               /\ PyStr.strip s = s /\ PyStr.truthy s = true) items).
  { apply List.Forall_forall. intros s Hs.
    apply no_comma_stripped_spec.
    by apply (proj1 (forallb_forall _ _) Hall). }
  destruct items as [|p items]; [split; reflexivity|].
  assert (Hsplit : Args.split "," (PyStr.join "," (p :: items)) = p :: items).
  { apply split_join; [discriminate|].
    eapply Forall_impl; [exact Hf|]. by intros s [H _]. }
  assert (Hs : Forall (fun s => PyStr.strip s = s /\ PyStr.truthy s = true)
                 (p :: items)).
  { eapply Forall_impl; [exact Hf|]. by intros s [_ H]. }
  unfold Args.names_of, Args.lower_names_of. rewrite Hsplit. split.
  - rewrite <- (map_id (p :: items)) at 2.
    apply (filter_truthy_fixed (fun s => s) _ Hs). reflexivity.
  - apply (filter_truthy_fixed PyStr.lower _ Hs). apply truthy_lower.
Qed.

(** X4, instance: three directory names of [DEFAULT_EXCLUDE_DIRS]. *)
Lemma names_of_join_witness :
  Args.names_of (PyStr.join "," [".git"; "archive"; "target"]) =
    [".git"; "archive"; "target"]
  /\ Args.lower_names_of (PyStr.join "," [".git"; "archive"; "target"]) =
       map PyStr.lower [".git"; "archive"; "target"].
Proof.
  apply (names_of_join [".git"; "archive"; "target"]).
  vm_compute. reflexivity.
Defined.


(* ===================================================================== *)
(** * Properties of the glob matcher                                      *)
(* ===================================================================== *)

Section GlobFacts.
Import PyStr Fnmatch.

Lemma translate_loop_nil fuel res : translate_loop fuel [] res = rev res.
Proof. by destruct fuel. Qed.

Lemma plain_cons c l :
  Plain.plain (c :: l) = true ->
  Ascii.eqb c "*" = false /\ Ascii.eqb c "?" = false /\ Ascii.eqb c "[" = false
  /\ Plain.plain l = true.
Proof.
  cbn [Plain.plain forallb]. intros H. apply andb_prop in H as [H Hl].
  apply negb_true_iff in H.
  destruct (Ascii.eqb c "*"), (Ascii.eqb c "?"), (Ascii.eqb c "[");
    try discriminate H. auto.
Qed.

(** A run of characters without meaning for [fnmatch] becomes literals. *)
Lemma translate_loop_plain l : forall fuel rest res,
  Plain.plain l = true ->
  translate_loop (length l + fuel) (l ++ rest) res =
    translate_loop fuel rest (rev (map Lit l) ++ res).
Proof.
  induction l as [|c l IH]; intros fuel rest res Hl; [reflexivity|].
  apply plain_cons in Hl as (H1 & H2 & H3 & Hl).
  cbn [length Nat.add app translate_loop]. rewrite H1, H2, H3.
  rewrite (IH fuel rest (Lit c :: res) Hl). cbn [map rev].
  by rewrite <- app_assoc.
Qed.

Lemma translate_loop_plain_end l fuel res :
  Plain.plain l = true ->
  translate_loop (length l + fuel) l res = rev (rev (map Lit l) ++ res).
Proof.
  intros Hl. pose proof (translate_loop_plain l fuel [] res Hl) as H.
  rewrite app_nil_r in H. by rewrite H, translate_loop_nil.
Qed.

(** Consecutive stars are one star. *)
Lemma translate_loop_stars k : forall fuel rest res,
  translate_loop (k + fuel) (repeat "*"%char k ++ rest) (Star :: res) =
    translate_loop fuel rest (Star :: res).
Proof.
  induction k as [|k IH]; intros fuel rest res; [reflexivity|].
  cbn [repeat Nat.add app translate_loop]. rewrite Ascii.eqb_refl.
  cbn [add_star]. apply IH.
Qed.

Lemma add_star_literals l : add_star (rev (map Lit l) ++ []) = Star :: rev (map Lit l).
Proof.
  rewrite app_nil_r, <- map_rev. by destruct (rev l).
Qed.

Lemma translate_star_between (lit1 lit2 : list ascii) k :
  Plain.plain lit1 = true -> Plain.plain lit2 = true ->
  translate (str (lit1 ++ repeat "*"%char (S k) ++ lit2)) =
    map Lit lit1 ++ Star :: map Lit lit2.
Proof.
  intros H1 H2. unfold translate. rewrite length_str, chars_str.
  rewrite !length_app, repeat_length.
  replace (S (length lit1 + (S k + length lit2)))
    with (length lit1 + (1 + (k + (length lit2 + 1)))) by lia.
  rewrite (translate_loop_plain lit1 _ _ [] H1).
  cbn [repeat Nat.add app translate_loop]. rewrite Ascii.eqb_refl.
  rewrite add_star_literals.
  rewrite translate_loop_stars.
  rewrite (translate_loop_plain_end lit2 1 _ H2).
  rewrite rev_app_distr. cbn [rev]. rewrite !rev_involutive.
  by rewrite <- app_assoc.
Qed.

Lemma translate_plain (lit : list ascii) :
  Plain.plain lit = true -> translate (str lit) = map Lit lit.
Proof.
  intros H. unfold translate. rewrite length_str, chars_str.
  replace (S (length lit)) with (length lit + 1) by lia.
  rewrite (translate_loop_plain_end lit 1 [] H).
  by rewrite app_nil_r, rev_involutive.
Qed.

(** ** Matching *)

Lemma matches_star toks s :
  matches (Star :: toks) s =
    matches toks s
    || match s with [] => false | _ :: s' => matches (Star :: toks) s' end.
Proof. by destruct s. Qed.

Lemma matches_star_iff toks s :
  matches (Star :: toks) s = true <->
  exists a b, s = a ++ b /\ matches toks b = true.
Proof.
  induction s as [|x s IH]; rewrite matches_star.
  - rewrite orb_false_r. split.
    + intros H. by exists [], [].
    + intros (a & b & E & H). symmetry in E.
      apply app_eq_nil in E as [_ ->]. exact H.
  - rewrite orb_true_iff, IH. split.
    + intros [H|(a & b & -> & H)].
      * by exists [], (x :: s).
      * by exists (x :: a), b.
    + intros (a & b & E & H). destruct a as [|y a].
      * left. cbn [app] in E. by subst b.
      * right. injection E as _ ->. by exists a, b.
Qed.

Lemma matches_literals lit toks : forall s,
  matches (map Lit lit ++ toks) s = true <->
  exists r, s = lit ++ r /\ matches toks r = true.
Proof.
  induction lit as [|c lit IH]; intros s.
  - cbn [map app]. split; [intros H; by exists s | by intros (r & -> & H)].
  - cbn [map app matches]. destruct s as [|x s].
    + split; [discriminate | intros (r & E & _); discriminate E].
    + cbn [tok_matches]. rewrite andb_true_iff, IH. split.
      * intros [Hx (r & -> & H)]. apply Ascii.eqb_eq in Hx. subst x. by exists r.
      * intros (r & E & H). injection E as -> ->.
        split; [apply Ascii.eqb_refl | by exists r].
Qed.

Lemma matches_nil s : matches [] s = true <-> s = [].
Proof. destruct s; cbn; split; congruence. Qed.

Lemma matches_literals_exact lit s :
  matches (map Lit lit) s = true <-> s = lit.
Proof.
  pose proof (matches_literals lit [] s) as H. rewrite app_nil_r in H.
  rewrite H. split.
  - intros (r & -> & Hr). apply matches_nil in Hr. subst r. apply app_nil_r.
  - intros ->. exists []. split; [by rewrite app_nil_r | reflexivity].
Qed.

Lemma string_eq_chars a b : chars a = chars b -> a = b.
Proof. intros E. by rewrite <- (str_chars a), <- (str_chars b), E. Qed.

End GlobFacts.

(** X5.  In a pattern made of a literal text, one or more [*], and a
    literal text (the texts free of [*], [?] and the opening bracket), the
    stars stand for any run of characters, path separators included, and
    several stars are as one: the pattern matches exactly the names that
    begin with the first text and go on to end with the second. *)
Theorem fnmatch_star_between :
  forall (name lit1 lit2 : string) (k : nat),
    Plain.plain (PyStr.chars lit1) = true ->
    Plain.plain (PyStr.chars lit2) = true ->
    (Fnmatch.fnmatch name
       (lit1 ++ PyStr.str (repeat "*"%char (S k)) ++ lit2) = true
     <-> exists mid : string, name = (lit1 ++ mid ++ lit2)%string).
Proof.
  intros name lit1 lit2 k H1 H2. unfold Fnmatch.fnmatch.
  assert (E : (lit1 ++ PyStr.str (repeat "*"%char (S k)) ++ lit2)%string =
              PyStr.str (PyStr.chars lit1 ++ repeat "*"%char (S k) ++ PyStr.chars lit2)).
  { by rewrite !str_app, !str_chars. }
  rewrite E, (translate_star_between _ _ k H1 H2).
  rewrite matches_literals. split.
  - intros (r & Hr & Hm). apply matches_star_iff in Hm as (a & b & -> & Hb).
    apply matches_literals_exact in Hb. subst b.
    exists (PyStr.str a). apply string_eq_chars.
    by rewrite Hr, !chars_app, chars_str.
  - intros [mid ->]. exists (PyStr.chars mid ++ PyStr.chars lit2).
    split; [by rewrite !chars_app|].
    apply matches_star_iff. exists (PyStr.chars mid), (PyStr.chars lit2).
    split; [reflexivity | by apply matches_literals_exact].
Qed.

(** X5, instances: [*.ts] matches a path whatever its directories, and
    [vendor/**] matches what lies below [vendor]. *)
Lemma fnmatch_star_between_witness :
  Fnmatch.fnmatch "pkg/deep/plain.ts" "*.ts" = true
  /\ Fnmatch.fnmatch "vendor/lib/a.rs" "vendor/**" = true.
Proof.
  split.
  - apply (proj2 (fnmatch_star_between "pkg/deep/plain.ts" "" ".ts" 0
                    eq_refl eq_refl)).
    by exists "pkg/deep/plain".
  - apply (proj2 (fnmatch_star_between "vendor/lib/a.rs" "vendor/" "" 1
                    eq_refl eq_refl)).
    by exists "lib/a.rs".
Defined.

(** X6.  A pattern without [*], [?] and opening bracket matches its own
    text and nothing else. *)
Theorem fnmatch_plain_exact :
  forall name pat : string,
    Plain.plain (PyStr.chars pat) = true ->
    (Fnmatch.fnmatch name pat = true <-> name = pat).
Proof.
  intros name pat H. unfold Fnmatch.fnmatch.
  rewrite <- (str_chars pat) at 1. rewrite (translate_plain _ H).
  rewrite matches_literals_exact. split.
  - apply string_eq_chars.
  - by intros ->.
Qed.

(** X6, instance: the pattern [src/main.rs]. *)
Lemma fnmatch_plain_witness :
  Fnmatch.fnmatch "src/main.rs" "src/main.rs" = true.
Proof.
  by apply (proj2 (fnmatch_plain_exact "src/main.rs" "src/main.rs" eq_refl)).
Defined.


(* ===================================================================== *)
(** * Further properties of the selection                                 *)
(* ===================================================================== *)

Section SelectMore.
Import PyStr PyPath Select.

Lemma clean_globs_In pat globs :
  In pat globs -> truthy (strip pat) = true -> In (strip pat) (clean_globs globs).
Proof.
  intros Hin Ht. induction globs as [|g globs IH]; [destruct Hin|].
  rewrite clean_globs_cons. destruct Hin as [->|Hin].
  - rewrite Ht. by left.
  - destruct (truthy (strip g)); [right|]; by apply IH.
Qed.

Lemma match_any_glob_In rel p pats :
  In p pats -> Fnmatch.fnmatch rel (glob_of p) = true ->
  nonempty pats && _match_any_glob rel pats = true.
Proof.
  intros Hin Hm. apply andb_true_intro. split.
  - destruct pats; [destruct Hin | reflexivity].
  - unfold _match_any_glob. apply existsb_exists. by exists p.
Qed.

(** ** Normal form of a pattern *)

Lemma lstrip_char_other c s :
  startswith_char c s = false -> lstrip_char c s = s.
Proof.
  destruct s as [|x s]; [reflexivity|]. cbn [startswith_char]. intros E.
  unfold lstrip_char. change (chars (String x s)) with (x :: chars s).
  cbn [lstrip_by]. rewrite Ascii.eqb_sym, E.
  change (str (x :: chars s)) with (String x (str (chars s))).
  by rewrite str_chars.
Qed.

Lemma lstrip_char_same c s : lstrip_char c (String c s) = lstrip_char c s.
Proof.
  unfold lstrip_char. change (chars (String c s)) with (c :: chars s).
  cbn [lstrip_by]. by rewrite Ascii.eqb_refl.
Qed.

Lemma glob_of_eq pat :
  glob_of pat = lstrip_char "/" (lower (replace_char "\" "/" pat)).
Proof.
  unfold glob_of. destruct (startswith_char "/" _) eqn:E; [reflexivity|].
  by rewrite lstrip_char_other.
Qed.

Lemma lower_replace_lower_char c :
  lower_char (if Ascii.eqb (lower_char c) "\" then "/"%char else lower_char c) =
  lower_char (if Ascii.eqb c "\" then "/"%char else c).
Proof. destruct c as [[] [] [] [] [] [] [] []]; reflexivity. Qed.

Lemma lower_replace_lower s :
  lower (replace_char "\" "/" (lower s)) = lower (replace_char "\" "/" s).
Proof.
  induction s as [|c s IH]; [reflexivity|].
  rewrite lower_String, !replace_char_String, !lower_String, IH.
  by rewrite lower_replace_lower_char.
Qed.

Lemma replace_replace s :
  replace_char "\" "/" (replace_char "\" "/" s) = replace_char "\" "/" s.
Proof.
  induction s as [|c s IH]; [reflexivity|].
  rewrite !replace_char_String, IH. by destruct (Ascii.eqb c "\") eqn:E; [|rewrite E].
Qed.

(** ** Lower case and the parts of a path *)

Lemma join_lower parts :
  join "/" (map lower parts) = lower (join "/" parts).
Proof.
  induction parts as [|p parts IH]; [reflexivity|].
  destruct parts as [|q parts]; [reflexivity|].
  change (join "/" (map lower (p :: q :: parts)))
    with (lower p ++ "/" ++ join "/" (map lower (q :: parts)))%string.
  change (join "/" (p :: q :: parts))
    with (p ++ "/" ++ join "/" (q :: parts))%string.
  by rewrite IH, !lower_app.
Qed.

Lemma rel_posix_lower dirs fname :
  lower (rel_posix (map lower dirs) (lower fname)) = lower (rel_posix dirs fname).
Proof.
  unfold rel_posix.
  replace (map lower dirs ++ [lower fname]) with (map lower (dirs ++ [fname]))
    by (by rewrite map_app).
  by rewrite join_lower, lower_replace_lower.
Qed.

Lemma lower_char_dot x : Ascii.eqb (lower_char x) "." = Ascii.eqb x ".".
Proof. destruct x as [[] [] [] [] [] [] [] []]; reflexivity. Qed.

Lemma rfind_from_map (g : ascii -> ascii) c l : forall i last,
  (forall x, Ascii.eqb (g x) c = Ascii.eqb x c) ->
  rfind_from c (map g l) i last = rfind_from c l i last.
Proof.
  induction l as [|x l IH]; intros i last Hg; [reflexivity|].
  cbn [map rfind_from]. by rewrite Hg, IH.
Qed.

Lemma rfind_lower s : rfind "." (lower s) = rfind "." s.
Proof.
  unfold rfind, lower. rewrite chars_str.
  apply rfind_from_map, lower_char_dot.
Qed.

Lemma substring_lower s : forall n m,
  String.substring n m (lower s) = lower (String.substring n m s).
Proof.
  induction s as [|c s IH]; intros [|n] [|m]; try reflexivity;
    rewrite lower_String; cbn [String.substring]; rewrite ?lower_String, ?IH;
    reflexivity.
Qed.

Lemma suffix_lower name : suffix (lower name) = lower (suffix name).
Proof.
  unfold suffix. rewrite rfind_lower, length_lower.
  destruct (rfind "." name) as [i|]; [|reflexivity].
  destruct ((0 <? i)%nat && (i <? String.length name - 1)%nat); [|reflexivity].
  apply substring_lower.
Qed.

Lemma ext_of_lower name : ext_of (lower name) = ext_of name.
Proof. unfold ext_of. by rewrite suffix_lower, lower_idem. Qed.

(** ** The last dot of a name *)

Lemma rfind_from_app c a : forall b i last,
  rfind_from c (a ++ b) i last =
    rfind_from c b (i + length a) (rfind_from c a i last).
Proof.
  induction a as [|x a IH]; intros b i last.
  - cbn [app length rfind_from]. by rewrite Nat.add_0_r.
  - cbn [app length rfind_from]. rewrite IH. f_equal. lia.
Qed.

Lemma rfind_from_absent c l : forall i last,
  existsb (Ascii.eqb c) l = false -> rfind_from c l i last = last.
Proof.
  induction l as [|x l IH]; intros i last H; [reflexivity|].
  cbn [existsb] in H. apply orb_false_iff in H as [Hx Hl].
  cbn [rfind_from]. rewrite Ascii.eqb_sym, Hx. by apply IH.
Qed.

Lemma length_chars s : length (chars s) = String.length s.
Proof.
  induction s as [|c s IH]; [reflexivity|].
  change (chars (String c s)) with (c :: chars s). cbn [length String.length].
  by rewrite IH.
Qed.

Lemma length_append a b :
  String.length (a ++ b)%string = String.length a + String.length b.
Proof.
  induction a as [|c a IH]; [reflexivity|].
  rewrite append_String. cbn [String.length]. by rewrite IH.
Qed.

Lemma substring_tail a : forall b,
  String.substring (String.length a) (String.length b) (a ++ b)%string = b.
Proof.
  induction a as [|c a IH]; intros b.
  - change (("" ++ b)%string) with b. cbn [String.length].
    induction b as [|x b IHb]; [reflexivity|].
    cbn [String.length String.substring]. by rewrite IHb.
  - rewrite append_String. cbn [String.length String.substring]. apply IH.
Qed.

Lemma has_char_lower_dot s :
  Plain.has_char "." (lower s) = Plain.has_char "." s.
Proof.
  unfold Plain.has_char, lower. rewrite chars_str.
  induction (chars s) as [|x l IH]; [reflexivity|].
  cbn [map existsb]. rewrite IH. f_equal.
  by rewrite Ascii.eqb_sym, lower_char_dot, Ascii.eqb_sym.
Qed.

Lemma not_startswith_absent c s :
  Plain.has_char c s = false -> startswith_char c s = false.
Proof.
  destruct s as [|x s]; [reflexivity|]. unfold Plain.has_char.
  change (chars (String x s)) with (x :: chars s). cbn [existsb startswith_char].
  intros H. apply orb_false_iff in H as [H _]. by rewrite Ascii.eqb_sym.
Qed.

Lemma rfind_last_dot stem e :
  Plain.has_char "." e = false ->
  rfind "." (stem ++ "." ++ e) = Some (String.length stem).
Proof.
  intros He. unfold rfind. rewrite chars_app, rfind_from_app.
  change (chars ("." ++ e)%string) with ("."%char :: chars e).
  cbn [rfind_from]. rewrite Ascii.eqb_refl.
  rewrite (rfind_from_absent _ _ _ _ He). by rewrite length_chars.
Qed.

End SelectMore.


(** X7.  Without [prefer_include] an ignore rule is final.  A path that
    one ignore glob matches (the glob stripped and normalised, the path
    relative, with forward slashes and in lower case), or whose non-empty
    extension is in the excluded extensions, is not yielded, whatever the
    include globs, the included extensions and the name overrides say; so an
    extension listed as included and as excluded is excluded. *)
Theorem ignore_rule_is_final :
  forall (cfg : config) (dirs : list string) (fname : string),
    prefer_include cfg = false ->
    (forall pat : string,
        In pat (ignore_globs cfg) ->
        PyStr.truthy (PyStr.strip pat) = true ->
        Fnmatch.fnmatch (PyStr.lower (PyPath.rel_posix dirs fname))
          (Select.glob_of (PyStr.strip pat)) = true ->
        Select.selected cfg dirs fname = false)
    /\ (PyPath.ext_of fname <> "" ->
        PyPath.ext_of fname ∈ ignore_exts cfg ->
        Select.selected cfg dirs fname = false).
Proof.
  intros cfg dirs fname Hp. rewrite selected_cases, Hp. cbn [andb negb]. split.
  - intros pat Hin Ht Hm.
    assert (E : Select.ignored_by_glob cfg dirs fname = true).
    { unfold Select.ignored_by_glob.
      apply (match_any_glob_In _ (PyStr.strip pat)); [|exact Hm].
      by apply clean_globs_In. }
    by rewrite E.
  - intros Hne Hin.
    assert (E : Select.ignored_by_ext cfg fname = true).
    { unfold Select.ignored_by_ext. apply andb_true_intro. split.
      - by destruct (PyPath.ext_of fname).
      - by apply bool_decide_eq_true_2. }
    by rewrite E, orb_true_r.
Qed.

(** X7, instance: [main.rs] under a configuration that lists [rs] as
    included and as excluded. *)
Lemma ignore_rule_rs_witness :
  Select.selected
    {| exclude_dirs := ∅; include_globs := []; ignore_globs := [];
       ignore_exts := {[ "rs" ]}; exts := {[ "rs" ]};
       prefer_include := false; follow_symlinks := false; max_bytes := 0 |}
    ["src"] "main.rs" = false.
Proof.
  apply (proj2 (ignore_rule_is_final
                  {| exclude_dirs := ∅; include_globs := []; ignore_globs := [];
                     ignore_exts := {[ "rs" ]}; exts := {[ "rs" ]};
                     prefer_include := false; follow_symlinks := false;
                     max_bytes := 0 |}
                  ["src"] "main.rs" eq_refl)).
  - vm_compute. intros E. discriminate E.
  - compute_done.
Defined.

(** X8.  What a pattern is matched as does not depend on its case, on
    leading slashes, or on whether it is written with backslashes: the list
    of patterns gives the same verdict with every pattern in lower case,
    with a slash put in front of every pattern, and with the backslashes of
    every pattern turned into slashes. *)
Theorem match_any_glob_normalises :
  forall (rel : string) (patterns : list string),
    Select._match_any_glob rel (map PyStr.lower patterns) =
      Select._match_any_glob rel patterns
    /\ Select._match_any_glob rel (map (String "/") patterns) =
         Select._match_any_glob rel patterns
    /\ Select._match_any_glob rel (map (PyStr.replace_char "\" "/") patterns) =
         Select._match_any_glob rel patterns.
Proof.
  intros rel patterns. unfold Select._match_any_glob.
  split; [|split]; induction patterns as [|p patterns IH]; try reflexivity;
    cbn [map existsb]; rewrite IH; f_equal; f_equal; rewrite !glob_of_eq.
  - by rewrite lower_replace_lower.
  - rewrite replace_char_String. change (Ascii.eqb "/" "\") with false.
    rewrite lower_String. change (PyStr.lower_char "/") with "/"%char.
    apply lstrip_char_same.
  - by rewrite replace_replace.
Qed.

(** X9.  The selection does not look at the case of a path: a file is
    yielded exactly when the file of the same path in lower case would
    be. *)
Theorem selected_case_insensitive :
  forall (cfg : config) (dirs : list string) (fname : string),
    Select.selected cfg (map PyStr.lower dirs) (PyStr.lower fname) =
      Select.selected cfg dirs fname.
Proof.
  intros cfg dirs fname. rewrite !selected_cases.
  unfold Select.matches_include, Select.ignored_by_glob, Select.ignored_by_ext,
    Select.should_include_file.
  by rewrite rel_posix_lower, ext_of_lower, lower_idem.
Qed.

(** X10.  The extension of a name is what follows its last dot, in lower
    case, when that dot is neither the first nor the last character: a name
    [stem.e] with a non-empty stem and a non-empty, dot-free [e] has
    extension [e] lowered; a name without dot, a name that only begins with
    its dot (a dot file) and a name that ends with a dot have none. *)
Theorem ext_of_last_dot :
  forall stem e : string,
    Plain.has_char "." e = false ->
    (stem <> "" -> e <> "" ->
       PyPath.ext_of (stem ++ "." ++ e) = PyStr.lower e)
    /\ PyPath.ext_of e = ""
    /\ PyPath.ext_of ("." ++ e) = ""
    /\ PyPath.ext_of (stem ++ ".") = "".
Proof.
  intros stem e He. split; [|split; [|split]].
  - intros Hs Hne. unfold PyPath.ext_of, PyPath.suffix.
    rewrite (rfind_last_dot stem e He), !length_append.
    change (String.length ".") with 1.
    assert (Hcond : ((0 <? String.length stem)%nat
                     && (String.length stem <?
                           String.length stem + (1 + String.length e) - 1)%nat)
                    = true).
    { apply andb_true_intro. destruct stem, e; try done.
      cbn [String.length]. split; apply Nat.ltb_lt; lia. }
    rewrite Hcond.
    replace (String.length stem + (1 + String.length e) - String.length stem)
      with (String.length ("." ++ e)%string)
      by (rewrite length_append; change (String.length ".") with 1; lia).
    rewrite substring_tail.
    change ("." ++ e)%string with (String "." e).
    rewrite lower_String. change (PyStr.lower_char ".") with "."%char.
    rewrite lstrip_char_same. apply lstrip_char_other.
    apply not_startswith_absent. by rewrite has_char_lower_dot.
  - unfold PyPath.ext_of, PyPath.suffix, PyStr.rfind.
    by rewrite (rfind_from_absent _ _ _ _ He).
  - unfold PyPath.ext_of, PyPath.suffix.
    pose proof (rfind_last_dot "" e He) as H.
    change ("" ++ "." ++ e)%string with ("." ++ e)%string in H.
    by rewrite H.
  - unfold PyPath.ext_of, PyPath.suffix.
    pose proof (rfind_last_dot stem "" eq_refl) as H.
    change (stem ++ "." ++ "")%string with (stem ++ ".")%string in H.
    rewrite H, length_append. change (String.length ".") with 1.
    replace (String.length stem <? String.length stem + 1 - 1)%nat with false.
    + by rewrite andb_false_r.
    + symmetry. apply Nat.ltb_ge. lia.
Qed.

(** X10, instances: [archive.tar.GZ] has extension [gz]; [.gitignore] has
    none, so the excluded extension [gitignore] does not concern it. *)
Lemma ext_of_last_dot_witness :
  PyPath.ext_of "archive.tar.GZ" = "gz" /\ PyPath.ext_of ".gitignore" = "".
Proof.
  split.
  - apply (proj1 (ext_of_last_dot "archive.tar" "GZ" eq_refl));
      intros E; discriminate E.
  - apply (proj1 (proj2 (proj2 (ext_of_last_dot "" "gitignore" eq_refl)))).
Defined.

(** X11.  The language hint does not depend on the case of the file name,
    and a name that is a key of [NAME_LANG_OVERRIDES] in lower case gets the
    hint of that key whatever its extension. *)
Theorem detect_lang_for_case_insensitive :
  forall name : string,
    Lang.detect_lang_for (PyStr.lower name) = Lang.detect_lang_for name
    /\ (forall lang : string,
          NAME_LANG_OVERRIDES !! PyStr.lower name = Some lang ->
          Lang.detect_lang_for name = lang).
Proof.
  intros name. unfold Lang.detect_lang_for. split.
  - by rewrite lower_idem, ext_of_lower.
  - intros lang H. by rewrite H.
Qed.


(* ===================================================================== *)
(** * Further properties of the sniffer and of the per-file loop          *)
(* ===================================================================== *)

Section RunFacts.
Import PyStr FS Pack Reach.

Lemma text_chunk_not_binary chunk :
  (length chunk <= 4096)%nat ->
  forallb Sniff.in_text_chars chunk = true ->
  Sniff.sniff chunk = false.
Proof.
  intros Hlen Hall. destruct chunk as [|b chunk]; [reflexivity|].
  unfold Sniff.sniff.
  assert (Hnul : existsb Sniff.is_nul (b :: chunk) = false).
  { apply not_true_is_false. intros H. apply existsb_exists in H as (x & Hx & Hn).
    apply is_nul_spec in Hn. subst x.
    pose proof (proj1 (forallb_forall _ _) Hall _ Hx) as Ht. discriminate Ht. }
  rewrite Hnul.
  assert (Hnon : Sniff.nontext (b :: chunk) = 0%Z).
  { unfold Sniff.nontext. generalize (b :: chunk) Hall. clear.
    induction l as [|x l IH]; intros Hall; [reflexivity|].
    cbn [forallb] in Hall. apply andb_true_iff in Hall as [Hx Hl].
    rewrite filter_cons_False; [by apply IH|].
    cbv beta. rewrite Hx. intros []. }
  rewrite Hnon, float_test_exact.
  - apply Z.ltb_ge. lia.
  - cbn [length] in *. lia.
  - cbn [length] in *. lia.
Qed.

Lemma forallb_take {A} (f : A -> bool) n l :
  forallb f l = true -> forallb f (take n l) = true.
Proof.
  revert n. induction l as [|x l IH]; intros [|n] H; try reflexivity.
  cbn [forallb take] in *. apply andb_true_iff in H as [Hx Hl].
  rewrite Hx. by apply IH.
Qed.

Lemma total_process_file cfg st fp :
  total (counts (process_file cfg st fp)) = S (total (counts st)).
Proof.
  unfold process_file, total.
  destruct (st_size (c_file fp)) as [size|]; cbn; [|lia].
  destruct ((0 <? max_bytes cfg)%Z && (max_bytes cfg <? size)%Z); cbn; [lia|].
  destruct (Sniff.is_probably_binary (data (c_file fp)) sniff_bytes);
    cbn; [lia|].
  destruct (data (c_file fp)); cbn; lia.
Qed.

Lemma total_fold cfg l : forall st,
  total (counts (fold_left (process_file cfg) l st)) =
    length l + total (counts st).
Proof.
  induction l as [|fp l IH]; intros st; cbn [fold_left length]; [reflexivity|].
  rewrite IH, total_process_file. lia.
Qed.

Lemma accepts_reaches_read cfg fp : accepts cfg fp = reaches_read cfg fp.
Proof.
  unfold accepts, reaches_read, passes_size.
  destruct (st_size (c_file fp)) as [size|]; [|reflexivity].
  destruct ((0 <? max_bytes cfg)%Z && (max_bytes cfg <? size)%Z);
    [reflexivity|].
  destruct (data (c_file fp)) as [bytes|]; [|reflexivity].
  cbn [Sniff.is_probably_binary negb andb].
  by destruct (Sniff.sniff (take sniff_bytes bytes)).
Qed.

Lemma filter_accepts cfg l :
  List.filter (accepts cfg) l = List.filter (reaches_read cfg) l.
Proof. apply filter_ext. intros fp. apply accepts_reaches_read. Qed.

Lemma counts_process_file cfg st fp :
  let b2n (b : bool) : nat := if b then 1 else 0 in
  written (counts (process_file cfg st fp)) =
    written (counts st) + b2n (accepts cfg fp) /\
  skipped_errors (counts (process_file cfg st fp)) =
    skipped_errors (counts st) + b2n (stat_fails fp) /\
  skipped_too_large (counts (process_file cfg st fp)) =
    skipped_too_large (counts st) + b2n (too_large cfg fp) /\
  skipped_binary (counts (process_file cfg st fp)) =
    skipped_binary (counts st) + b2n (sniffed_binary cfg fp).
Proof.
  cbv zeta.
  unfold process_file, accepts, stat_fails, too_large, sniffed_binary,
    passes_size.
  destruct (st_size (c_file fp)) as [size|]; [|cbn; lia].
  destruct ((0 <? max_bytes cfg)%Z && (max_bytes cfg <? size)%Z);
    [cbn; lia|].
  destruct (data (c_file fp)) as [bytes|]; [|cbn; lia].
  cbn [Sniff.is_probably_binary negb andb].
  destruct (Sniff.sniff (take sniff_bytes bytes)); cbn; lia.
Qed.

Lemma counts_fold cfg l : forall st,
  let st' := fold_left (process_file cfg) l st in
  written (counts st') =
    written (counts st) + length (List.filter (accepts cfg) l) /\
  skipped_errors (counts st') =
    skipped_errors (counts st) + length (List.filter stat_fails l) /\
  skipped_too_large (counts st') =
    skipped_too_large (counts st) + length (List.filter (too_large cfg) l) /\
  skipped_binary (counts st') =
    skipped_binary (counts st) + length (List.filter (sniffed_binary cfg) l).
Proof.
  induction l as [|fp l IH]; intros st; cbv zeta; cbn [fold_left List.filter].
  - cbn [length]. lia.
  - specialize (IH (process_file cfg st fp)). cbv zeta in IH.
    destruct IH as (I1 & I2 & I3 & I4).
    destruct (counts_process_file cfg st fp) as (P1 & P2 & P3 & P4).
    rewrite I1, I2, I3, I4, P1, P2, P3, P4.
    destruct (accepts cfg fp), (stat_fails fp), (too_large cfg fp),
      (sniffed_binary cfg fp); cbn [length]; lia.
Qed.

Lemma filter_length_perm {A} (f : A -> bool) l l' :
  Permutation l l' -> length (List.filter f l) = length (List.filter f l').
Proof.
  induction 1 as [|x l l' _ IH|x y l|l l' l'' _ IH1 _ IH2];
    cbn [List.filter].
  - reflexivity.
  - destruct (f x); cbn [length]; lia.
  - destruct (f x), (f y); reflexivity.
  - lia.
Qed.

Lemma trace_process_file cfg st fp :
  let one (b : bool) : list string := if b then [rel_str fp] else [] in
  omap stat_of (trace (process_file cfg st fp)) =
    omap stat_of (trace st) ++ [rel_str fp] /\
  omap sniff_of (trace (process_file cfg st fp)) =
    omap sniff_of (trace st) ++ one (passes_size cfg fp) /\
  omap read_of (trace (process_file cfg st fp)) =
    omap read_of (trace st) ++ one (accepts cfg fp).
Proof.
  cbv zeta. unfold process_file, accepts, passes_size.
  destruct (st_size (c_file fp)) as [size|]; cbn [trace negb];
    rewrite ?omap_app; cbn [omap stat_of sniff_of read_of];
    [|by rewrite ?app_nil_r].
  destruct ((0 <? max_bytes cfg)%Z && (max_bytes cfg <? size)%Z);
    cbn [trace negb]; rewrite ?omap_app; cbn [omap stat_of sniff_of read_of];
    [by rewrite ?app_nil_r|].
  destruct (data (c_file fp)) as [bytes|]; cbn [Sniff.is_probably_binary trace];
    rewrite ?omap_app; cbn [omap stat_of sniff_of read_of];
    [|by rewrite ?app_nil_r].
  destruct (Sniff.sniff (take sniff_bytes bytes)); cbn [trace];
    rewrite ?omap_app; cbn [omap stat_of sniff_of read_of];
    by rewrite ?app_nil_r.
Qed.

Lemma trace_fold cfg l : forall st,
  let st' := fold_left (process_file cfg) l st in
  omap stat_of (trace st') = omap stat_of (trace st) ++ map rel_str l /\
  omap sniff_of (trace st') =
    omap sniff_of (trace st)
      ++ map rel_str (List.filter (passes_size cfg) l) /\
  omap read_of (trace st') =
    omap read_of (trace st) ++ map rel_str (List.filter (accepts cfg) l).
Proof.
  induction l as [|fp l IH]; intros st; cbv zeta;
    cbn [fold_left List.filter map].
  - by rewrite !app_nil_r.
  - specialize (IH (process_file cfg st fp)). cbv zeta in IH.
    destruct IH as (I1 & I2 & I3).
    destruct (trace_process_file cfg st fp) as (P1 & P2 & P3).
    rewrite I1, I2, I3, P1, P2, P3.
    destruct (passes_size cfg fp), (accepts cfg fp); cbn [map];
      rewrite <- ?app_assoc; cbn [app]; done.
Qed.

End RunFacts.

(** X12.  Whatever its length, a file all of whose bytes are printable
    ASCII or one of the control characters 7, 8, 9, 10, 12, 13 and 27 is
    not reported as binary by [is_probably_binary]. *)
Theorem text_bytes_never_binary :
  forall bytes : list Byte.byte,
    forallb Sniff.in_text_chars bytes = true ->
    Sniff.is_probably_binary (Some bytes) Pack.sniff_bytes = false.
Proof.
  intros bytes Hall. unfold Sniff.is_probably_binary.
  apply text_chunk_not_binary.
  - rewrite length_take. unfold Pack.sniff_bytes. lia.
  - by apply forallb_take.
Qed.

Lemma text_bytes_never_binary_witness :
  Sniff.is_probably_binary
    (Some (Scenario.bytes_of "fn main() {}")) Pack.sniff_bytes = false.
Proof.
  apply (text_bytes_never_binary (Scenario.bytes_of "fn main() {}")).
  vm_compute. reflexivity.
Defined.

(** X13.  When [main] runs to its summary line, the four numbers of the
    line add up to [FILE_COUNT], the number of paths [iter_files]
    yielded, and [written] is the number of file blocks put out. *)
Theorem summary_accounts_for_every_file :
  forall cfg fs (root : FS.dir_id) depth st,
    Pack.main cfg fs root depth = Some st ->
    Reach.total (Pack.counts st)
      = length (Pack.iter_files cfg fs root depth).1 /\
    Pack.written (Pack.counts st) = length (Pack.emitted st).
Proof.
  intros cfg fs root depth st. unfold Pack.main.
  destruct (Pack.iter_files cfg fs root depth) as [files [|]];
    [|discriminate].
  intros [= <-]. cbn [fst]. split.
  - rewrite total_fold. cbn. rewrite Nat.add_0_r.
    apply Permutation_length, sort_files_perm.
  - destruct (counts_fold cfg (Pack.sort_files files) Pack.initial)
      as (Hw & _).
    cbv zeta in Hw. rewrite Hw, emitted_fold. reflexivity.
Qed.

Lemma summary_accounts_witness :
  exists st,
    Pack.main Mixed.limit_ten Mixed.tree 0 1 = Some st /\
    Reach.total (Pack.counts st)
      = length (Pack.iter_files Mixed.limit_ten Mixed.tree 0 1).1 /\
    Pack.written (Pack.counts st) = length (Pack.emitted st).
Proof.
  destruct (Pack.main Mixed.limit_ten Mixed.tree 0 1) as [st|] eqn:E.
  - exists st. split; [reflexivity|].
    apply (summary_accounts_for_every_file
             Mixed.limit_ten Mixed.tree 0 1 st E).
  - vm_compute in E. discriminate E.
Defined.

(** X14.  What the counters of the summary count, on a tree that does
    not change during the run: [skipped_too_large] the yielded files
    larger than a positive [--max-bytes]; [skipped_binary] those which pass
    the size test and for which the sniffer answers true, a file that
    cannot be opened among them; and every other file, that is one whose
    [stat] raises or which goes on to the full read, is counted either in
    [skipped_errors] or in [written], the files whose [stat] raises all in
    [skipped_errors]. *)
Theorem counters_by_cause :
  forall cfg fs (root : FS.dir_id) depth st,
    Pack.main cfg fs root depth = Some st ->
    let files := (Pack.iter_files cfg fs root depth).1 in
    Pack.skipped_too_large (Pack.counts st)
      = length (List.filter (Reach.too_large cfg) files) /\
    Pack.skipped_binary (Pack.counts st)
      = length (List.filter (Reach.sniffed_binary cfg) files) /\
    Pack.written (Pack.counts st) + Pack.skipped_errors (Pack.counts st)
      = length (List.filter Reach.stat_fails files)
        + length (List.filter (Reach.reaches_read cfg) files) /\
    length (List.filter Reach.stat_fails files)
      <= Pack.skipped_errors (Pack.counts st) /\
    (forall fp, FS.data (Pack.c_file fp) = None ->
                FS.st_size (Pack.c_file fp) <> None ->
                Reach.too_large cfg fp = false ->
                Reach.sniffed_binary cfg fp = true).
Proof.
  intros cfg fs root depth st. unfold Pack.main.
  destruct (Pack.iter_files cfg fs root depth) as [files [|]];
    [|discriminate].
  intros [= <-]. cbv zeta. cbn [fst].
  destruct (counts_fold cfg (Pack.sort_files files) Pack.initial)
    as (Hw & He & Hl & Hb).
  cbv zeta in Hw, He, Hl, Hb. rewrite Hw, He, Hl, Hb, filter_accepts.
  cbn [Pack.initial Pack.counts Pack.written Pack.skipped_errors
       Pack.skipped_too_large Pack.skipped_binary plus].
  pose proof (sort_files_perm files) as Hp.
  rewrite (filter_length_perm (Reach.too_large cfg) _ _ Hp).
  rewrite (filter_length_perm (Reach.sniffed_binary cfg) _ _ Hp).
  rewrite (filter_length_perm Reach.stat_fails _ _ Hp).
  rewrite (filter_length_perm (Reach.reaches_read cfg) _ _ Hp).
  split; [reflexivity|]. split; [reflexivity|]. split; [lia|].
  split; [lia|].
  intros fp Hd Hs Hl'. unfold Reach.sniffed_binary, Reach.passes_size.
  unfold Reach.too_large in Hl'.
  destruct (FS.st_size (Pack.c_file fp)) as [size|]; [|by destruct Hs].
  rewrite Hl', Hd. reflexivity.
Qed.

Lemma counters_by_cause_witness :
  exists st,
    Pack.main Mixed.limit_ten Mixed.tree 0 1 = Some st /\
    Pack.skipped_too_large (Pack.counts st) = 1 /\
    Pack.skipped_binary (Pack.counts st) = 2 /\
    Pack.written (Pack.counts st) + Pack.skipped_errors (Pack.counts st) = 2.
Proof.
  destruct (Pack.main Mixed.limit_ten Mixed.tree 0 1) as [st|] eqn:E.
  - exists st. split; [reflexivity|].
    pose proof (counters_by_cause Mixed.limit_ten Mixed.tree 0 1 st E) as H.
    cbv zeta in H. destruct H as (H1 & H2 & H3 & _).
    rewrite H1, H2, H3. vm_compute. split; [|split]; reflexivity.
  - vm_compute in E. discriminate E.
Defined.

(** X15.  The accesses of a run: every yielded file is stat'ed exactly
    once, in the sorted order; the sniffer opens a file only when it passed
    the size test; the files read in full are those for which the sniffer
    then answered false; and every file written is among the files read in
    full, in the same order. *)
Theorem file_accesses_of_a_run :
  forall cfg fs (root : FS.dir_id) depth st,
    Pack.main cfg fs root depth = Some st ->
    let files := Pack.sort_files (Pack.iter_files cfg fs root depth).1 in
    omap Reach.stat_of (Pack.trace st) = map Pack.rel_str files /\
    omap Reach.sniff_of (Pack.trace st)
      = map Pack.rel_str (List.filter (Reach.passes_size cfg) files) /\
    omap Reach.read_of (Pack.trace st)
      = map Pack.rel_str (List.filter (Reach.reaches_read cfg) files) /\
    sublist (map Pack.rel_str (Pack.emitted st))
      (omap Reach.read_of (Pack.trace st)).
Proof.
  intros cfg fs root depth st. unfold Pack.main.
  destruct (Pack.iter_files cfg fs root depth) as [files [|]];
    [|discriminate].
  intros [= <-]. cbv zeta. cbn [fst].
  destruct (trace_fold cfg (Pack.sort_files files) Pack.initial)
    as (Hs & Hn & Hr).
  cbv zeta in Hs, Hn, Hr. rewrite Hs, Hn, Hr, emitted_fold, filter_accepts.
  split; [reflexivity|]. split; [reflexivity|]. split; reflexivity.
Qed.

Lemma file_accesses_witness :
  exists st,
    Pack.main Mixed.limit_ten Mixed.tree 0 1 = Some st /\
    omap Reach.stat_of (Pack.trace st)
      = ["a.rs"; "b.rs"; "c.rs"; "d.rs"; "e.rs"] /\
    omap Reach.sniff_of (Pack.trace st) = ["a.rs"; "c.rs"; "d.rs"] /\
    omap Reach.read_of (Pack.trace st) = ["a.rs"].
Proof.
  destruct (Pack.main Mixed.limit_ten Mixed.tree 0 1) as [st|] eqn:E.
  - exists st. split; [reflexivity|].
    pose proof (file_accesses_of_a_run Mixed.limit_ten Mixed.tree 0 1 st E)
      as H.
    cbv zeta in H. destruct H as (H1 & H2 & H3 & _). rewrite H1, H2, H3.
    vm_compute. split; [|split]; reflexivity.
  - vm_compute in E. discriminate E.
Defined.

(* ===================================================================== *)
(** * What [iter_files] yields, read off the tree                         *)
(* ===================================================================== *)

Section ReachFacts.
Import PyStr FS Pack Reach.

Lemma resolve_snoc (fs : filesystem) fl : forall dirs (x d : dir_id)
    entries name islink target,
  resolve fs fl x dirs = Some d ->
  fs !! d = Some entries ->
  find_dir entries name = Some (islink, target) ->
  fl || negb islink = true ->
  resolve fs fl x (dirs ++ [name]) = Some target.
Proof.
  induction dirs as [|n dirs IH];
    intros x d entries name islink target Hres Hfs Hfind Hfl.
  - cbn [resolve] in Hres. injection Hres as ->.
    cbn [app resolve]. by rewrite Hfs, Hfind, Hfl.
  - cbn [app resolve] in *. destruct (fs !! x) as [ex|]; [|discriminate].
    destruct (find_dir ex n) as [[il t]|]; [|discriminate].
    destruct (fl || negb il); [|discriminate].
    by eapply IH.
Qed.

Lemma walk_subdirs_descend_visits fl (P : visit -> Prop) rec entries names :
  (forall name, In name names -> Forall P (descend fl rec entries name).1) ->
  Forall P (walk_subdirs fl rec entries names).1.
Proof.
  induction names as [|name rest IH]; intros Hrec; [constructor|].
  rewrite walk_subdirs_cons.
  assert (Hd : Forall P (descend fl rec entries name).1)
    by (apply Hrec; by left).
  destruct ((descend fl rec entries name).2); cbn [fst]; [|exact Hd].
  apply Forall_app. split; [exact Hd|].
  apply IH. intros n Hn. apply Hrec. by right.
Qed.

(** Every triple of the walk stands for a directory that the path of the
    triple leads to, and lists the files of that directory. *)
Lemma walk_sound (fs : filesystem) fl oy (root : dir_id) :
  forall depth dirpath (x : dir_id),
    resolve fs fl root dirpath = Some x ->
    Forall
      (fun v => exists (d : dir_id) entries,
         resolve fs fl root (v_dirpath v) = Some d
         /\ fs !! d = Some entries
         /\ v_files v = omap file_of entries)
      (walk fs fl oy depth dirpath x).1.
Proof.
  induction depth as [|depth IH]; intros dirpath x Hres; [constructor|].
  rewrite walk_unfold. destruct (fs !! x) as [entries|] eqn:Hx;
    [|constructor].
  cbv zeta. cbn [fst]. constructor.
  - exists x, entries. by cbn [v_dirpath v_files].
  - apply walk_subdirs_descend_visits. intros name _. unfold descend.
    destruct (find_dir entries name) as [[il t]|] eqn:Hf; [|constructor].
    destruct (fl || negb il) eqn:Hfl; [|constructor].
    apply IH. by eapply resolve_snoc.
Qed.

Lemma file_of_In entries name f :
  In (name, f) (omap file_of entries) <-> In (EFile name f) entries.
Proof.
  rewrite <- !list_elem_of_In, list_elem_of_omap. split.
  - intros (e & He & Hf). destruct e; cbn [file_of] in Hf; try discriminate.
    by injection Hf as -> ->.
  - intros H. by exists (EFile name f).
Qed.

Lemma candidates_of_In cfg v c :
  In c (candidates_of cfg v) <->
  c_dirs c = v_dirpath v
  /\ In (c_name c, c_file c) (v_files v)
  /\ Select.selected cfg (c_dirs c) (c_name c) = true.
Proof.
  unfold candidates_of. rewrite <- !list_elem_of_In, list_elem_of_omap. split.
  - intros ([name f] & Hin & Hsel). cbn [fst snd] in Hsel.
    destruct (Select.selected cfg (v_dirpath v) name) eqn:Hs;
      [|discriminate].
    injection Hsel as <-. by cbn [c_dirs c_name c_file].
  - intros (Hd & Hin & Hs). exists (c_name c, c_file c). split; [exact Hin|].
    cbn [fst snd]. rewrite <- Hd, Hs. by destruct c.
Qed.

Lemma find_dir_listed entries name x :
  find_dir entries name = Some x -> In name (omap dir_name entries).
Proof.
  induction entries as [|e entries IH]; [discriminate|].
  destruct e as [n f|n t|n t]; cbn [find_dir omap list_omap dir_name].
  - exact IH.
  - destruct (String.eqb_spec n name) as [->|_]; [by left|].
    intros H. right. by apply IH.
  - destruct (String.eqb_spec n name) as [->|_]; [by left|].
    intros H. right. by apply IH.
Qed.

Lemma walk_subdirs_member fl rec entries names name :
  (walk_subdirs fl rec entries names).2 = true ->
  In name names ->
  (descend fl rec entries name).2 = true
  /\ (forall v, In v (descend fl rec entries name).1 ->
                In v (walk_subdirs fl rec entries names).1).
Proof.
  induction names as [|n rest IH]; intros Hret Hin; [destruct Hin|].
  rewrite walk_subdirs_cons in Hret |- *.
  destruct ((descend fl rec entries n).2) eqn:Hn; cbn [fst snd] in *;
    [|discriminate].
  destruct Hin as [->|Hin].
  - split; [exact Hn|]. intros v Hv. apply in_or_app. by left.
  - destruct (IH Hret Hin) as [H1 H2]. split; [exact H1|].
    intros v Hv. apply in_or_app. right. by apply H2.
Qed.

(** When the walk returns, it has produced the triple of every directory
    reached from its start along names that the pruning keeps. *)
Lemma walk_complete cfg (fs : filesystem) fl : forall dirs depth dirpath
    (x d : dir_id) entries,
  (walk fs fl (prune cfg) depth dirpath x).2 = true ->
  resolve fs fl x dirs = Some d ->
  Forall (fun n => lower n ∉ exclude_dirs_norm cfg) dirs ->
  fs !! d = Some entries ->
  exists v, In v (walk fs fl (prune cfg) depth dirpath x).1
            /\ v_dirpath v = dirpath ++ dirs
            /\ v_files v = omap file_of entries.
Proof.
  induction dirs as [|name rest IH];
    intros depth dirpath x d entries Hret Hres Hk Hfs.
  - cbn [resolve] in Hres. injection Hres as ->.
    destruct depth as [|depth]; [discriminate Hret|].
    rewrite walk_unfold. rewrite Hfs. cbv zeta. cbn [fst].
    eexists. split; [by left|]. cbn [v_dirpath v_files].
    by rewrite app_nil_r.
  - destruct depth as [|depth]; [discriminate Hret|].
    rewrite walk_unfold in Hret |- *. cbn [resolve] in Hres.
    destruct (fs !! x) as [ex|] eqn:Hx; [|discriminate Hres].
    destruct (find_dir ex name) as [[il t]|] eqn:Hf; [|discriminate Hres].
    destruct (fl || negb il) eqn:Hfl; [|discriminate Hres].
    cbv zeta in Hret |- *. cbn [fst snd] in Hret |- *.
    apply Forall_cons in Hk as [Hname Hrest].
    assert (Hin : In name (prune cfg (omap dir_name ex))).
    { rewrite prune_filter. apply List.filter_In.
      split; [by eapply find_dir_listed|].
      apply negb_true_iff. by apply bool_decide_eq_false. }
    destruct (walk_subdirs_member _ _ _ _ _ Hret Hin) as [Hd Hincl].
    unfold descend in Hd, Hincl. rewrite Hf, Hfl in Hd, Hincl.
    destruct (IH depth (dirpath ++ [name]) t d entries Hd Hres Hrest Hfs)
      as (v & Hv & Hp & Hfiles).
    exists v. split; [right; by apply Hincl|].
    split; [|exact Hfiles]. by rewrite Hp, <- app_assoc.
Qed.

End ReachFacts.

(** X16.  Every path [iter_files] yields passes the selection rules, and
    names a file listed in a directory which its directory components
    lead to from the root; with [follow_symlinks] off, none of these
    components is a link. *)
Theorem iter_files_sound :
  forall cfg (fs : FS.filesystem) (root : FS.dir_id) depth c,
    In c (Pack.iter_files cfg fs root depth).1 ->
    Select.selected cfg (Pack.c_dirs c) (Pack.c_name c) = true
    /\ exists (d : FS.dir_id) entries,
         Reach.resolve fs (follow_symlinks cfg) root (Pack.c_dirs c) = Some d
         /\ fs !! d = Some entries
         /\ In (FS.EFile (Pack.c_name c) (Pack.c_file c)) entries.
Proof.
  intros cfg fs root depth c. unfold Pack.iter_files.
  pose proof (walk_sound fs (follow_symlinks cfg) (Pack.prune cfg) root
                depth [] root eq_refl) as Hw.
  destruct (FS.walk fs (follow_symlinks cfg) (Pack.prune cfg) depth [] root)
    as [visits ret]. cbn [fst] in *.
  intros Hc. apply in_flat_map in Hc as (v & Hv & Hc).
  apply candidates_of_In in Hc as (Hd & Hin & Hs). split; [exact Hs|].
  destruct (proj1 (List.Forall_forall _ _) Hw v Hv)
    as (d & entries & Hres & Hfs & Hfiles).
  exists d, entries. rewrite Hd. split; [exact Hres|]. split; [exact Hfs|].
  apply file_of_In. by rewrite <- Hfiles.
Qed.

Lemma iter_files_sound_witness :
  Select.selected default_config ["src"] "main.rs" = true
  /\ exists (d : FS.dir_id) entries,
       Reach.resolve Scenario.project false 0 ["src"] = Some d
       /\ Scenario.project !! d = Some entries
       /\ In (FS.EFile "main.rs" (Scenario.text_file "fn main() {}")) entries.
Proof.
  apply (iter_files_sound default_config Scenario.project 0 2
           (Pack.Candidate ["src"] "main.rs"
              (Scenario.text_file "fn main() {}"))).
  vm_compute. right. left. reflexivity.
Defined.

(** X17.  When the walk returns, [iter_files] misses nothing: a file that
    passes the selection rules is yielded as soon as its directory is
    reached from the root along names none of which is an excluded
    directory name (and, with [follow_symlinks] off, none of which is a
    link). *)
Theorem iter_files_complete :
  forall cfg (fs : FS.filesystem) (root : FS.dir_id) depth dirs
         (d : FS.dir_id) entries name f,
    (Pack.iter_files cfg fs root depth).2 = true ->
    Reach.resolve fs (follow_symlinks cfg) root dirs = Some d ->
    Forall (fun n => PyStr.lower n ∉ Pack.exclude_dirs_norm cfg) dirs ->
    fs !! d = Some entries ->
    In (FS.EFile name f) entries ->
    Select.selected cfg dirs name = true ->
    In (Pack.Candidate dirs name f) (Pack.iter_files cfg fs root depth).1.
Proof.
  intros cfg fs root depth dirs d entries name f. unfold Pack.iter_files.
  pose proof (walk_complete cfg fs (follow_symlinks cfg) dirs depth [] root
                d entries) as Hw.
  destruct (FS.walk fs (follow_symlinks cfg) (Pack.prune cfg) depth [] root)
    as [visits ret]. cbn [fst snd] in *.
  intros Hret Hres Hk Hfs Hin Hs.
  destruct (Hw Hret Hres Hk Hfs) as (v & Hv & Hp & Hfiles).
  apply in_flat_map. exists v. split; [exact Hv|].
  apply candidates_of_In. cbn [Pack.c_dirs Pack.c_name Pack.c_file].
  split; [by rewrite Hp|]. split; [|exact Hs].
  rewrite Hfiles. by apply file_of_In.
Qed.

Lemma iter_files_complete_witness :
  In (Pack.Candidate ["src"] "main.rs" (Scenario.text_file "fn main() {}"))
     (Pack.iter_files default_config Scenario.project 0 2).1.
Proof.
  apply (iter_files_complete default_config Scenario.project 0 2 ["src"] 1
           [FS.EFile "main.rs" (Scenario.text_file "fn main() {}")]).
  - vm_compute. reflexivity.
  - vm_compute. reflexivity.
  - constructor; [|constructor]. compute_done.
  - vm_compute. reflexivity.
  - left. reflexivity.
  - vm_compute. reflexivity.
Defined.

(* ===================================================================== *)
(** * The text written for a file                                         *)
(* ===================================================================== *)

Section FormatFacts.
Import PyStr IgnoreFile Format Plain.

Lemma replace_crlf_no_cr l :
  existsb (Ascii.eqb cr) l = false -> replace_crlf l = l.
Proof.
  induction l as [|c l IH]; intros H; [reflexivity|].
  cbn [existsb] in H. apply orb_false_iff in H as [Hc Hl].
  destruct l as [|n l]; [reflexivity|].
  change (replace_crlf (c :: n :: l))
    with (if Ascii.eqb c cr && Ascii.eqb n lf then lf :: replace_crlf l
          else c :: replace_crlf (n :: l)).
  rewrite Ascii.eqb_sym, Hc. cbn [andb]. f_equal. by apply IH.
Qed.

Lemma map_cr_no_cr l :
  existsb (Ascii.eqb cr) l = false ->
  map (fun c => if Ascii.eqb c cr then lf else c) l = l.
Proof.
  induction l as [|c l IH]; intros H; [reflexivity|].
  cbn [existsb] in H. apply orb_false_iff in H as [Hc Hl].
  cbn [map]. rewrite Ascii.eqb_sym, Hc. f_equal. by apply IH.
Qed.

Lemma map_cr_clean l :
  existsb (Ascii.eqb cr) (map (fun c => if Ascii.eqb c cr then lf else c) l)
    = false.
Proof.
  induction l as [|c l IH]; [reflexivity|].
  cbn [map existsb]. rewrite IH, orb_false_r.
  destruct (Ascii.eqb c cr) eqn:E; [reflexivity|].
  by rewrite Ascii.eqb_sym.
Qed.

Lemma append_empty_r s : (s ++ "")%string = s.
Proof. apply string_eq_chars. by rewrite chars_app, app_nil_r. Qed.

Lemma chars_fence content :
  exists n,
    chars (Fence.choose_code_fence content) = repeat Fence.backtick (S n)
    /\ Fence.longest (Fence.findall_runs (chars content) []) < S n.
Proof.
  unfold Fence.choose_code_fence. cbv zeta. rewrite chars_str.
  destruct (Nat.leb_spec 3
              (Fence.longest (Fence.findall_runs (chars content) [])))
    as [H|H].
  - exists (S (Fence.longest (Fence.findall_runs (chars content) []))).
    split; [f_equal; lia | lia].
  - exists 2. split; [reflexivity | lia].
Qed.

End FormatFacts.

(** X18.  The newline normalisation applied to the content of a file
    leaves no carriage return in it, and does not change a content that
    has none; so applying it twice is applying it once. *)
Theorem normalize_newlines_no_cr :
  forall content : string,
    Plain.has_char IgnoreFile.cr (Format.normalize_newlines content) = false
    /\ (Plain.has_char IgnoreFile.cr content = false ->
        Format.normalize_newlines content = content)
    /\ Format.normalize_newlines (Format.normalize_newlines content)
       = Format.normalize_newlines content.
Proof.
  intros content.
  assert (H1 : Plain.has_char IgnoreFile.cr (Format.normalize_newlines content)
               = false).
  { unfold Plain.has_char, Format.normalize_newlines, PyStr.replace_char.
    rewrite !chars_str. apply map_cr_clean. }
  assert (H2 : forall s, Plain.has_char IgnoreFile.cr s = false ->
                         Format.normalize_newlines s = s).
  { intros s H. unfold Plain.has_char in H.
    unfold Format.normalize_newlines, PyStr.replace_char.
    rewrite (replace_crlf_no_cr _ H), str_chars, (map_cr_no_cr _ H).
    apply str_chars. }
  split; [exact H1|]. split; [apply H2 | by apply H2].
Qed.

(** X19.  In a fenced block the body written between the two fence lines
    ends with a newline, so that the closing fence starts a line, and the
    fence does not occur anywhere inside that body. *)
Theorem fence_never_inside_body :
  forall content : string,
    Format.endswith_nl (Format.body content) = true
    /\ forall pre post,
         PyStr.chars (Format.body content)
           <> pre ++ PyStr.chars (Fence.choose_code_fence content) ++ post.
Proof.
  intros content. unfold Format.body.
  destruct (chars_fence content) as (n & Hn & Hlt). rewrite Hn.
  destruct (Format.endswith_nl content) eqn:Hend.
  - rewrite append_empty_r. split; [exact Hend|].
    intros pre post E.
    pose proof (findall_runs_covers pre _ [] (S n) post E). lia.
  - split.
    + unfold Format.endswith_nl. rewrite chars_app.
      change (PyStr.chars Format.nl) with [IgnoreFile.lf].
      rewrite rev_unit. reflexivity.
    + intros pre post E. rewrite chars_app in E.
      change (PyStr.chars Format.nl) with [IgnoreFile.lf] in E.
      induction post as [|z post' _] using rev_ind.
      * rewrite app_nil_r in E.
        change (repeat Fence.backtick (S n))
          with (Fence.backtick :: repeat Fence.backtick n) in E.
        rewrite repeat_cons, app_assoc in E.
        apply app_inj_tail in E as [_ E]. discriminate E.
      * rewrite !app_assoc in E. apply app_inj_tail in E as [E _].
        rewrite <- app_assoc in E.
        pose proof (findall_runs_covers pre _ [] (S n) post' E). lia.
Qed.
